(** * Workspace server: text-editing core and credential merge

    A shallow embedding of the parts of the Google Workspace tool server
    that carry an invariant:

    - [markdownToDocsRequests]: the markdown compiler
      ([parseMarkdownToDocsRequests], [processMarkdownLineBreaks]);
    - [DocsService]: the text-replacement planner
      ([_generateReplacementRequests]), [replaceText], [insertText] and
      [_addTabIdToFormattingRequests];
    - [SlidesService]: [replaceAllText];
    - [AuthManager]: the credential merge rule.

    Strings are sequences of code units.  The embedding uses [string], so
    a code unit is a value in 0..255; [String.length] is the JavaScript
    [length].  Numbers that index a document are [Z]. *)

From Stdlib Require Import ZArith Ascii String List Lia Bool.
From stdpp Require Import gmap strings list.

Set Warnings "-register-all".

(** ** JavaScript string primitives used by the sources *)

Module JS.

Definition LF : ascii := "010"%char.
Definition CR : ascii := "013"%char.

(** [.] in a regular expression (no [s] flag) refuses line terminators;
    below code unit 256 these are LF and CR. *)
Definition isLineTerminator (c : ascii) : bool :=
  Ascii.eqb c LF || Ascii.eqb c CR.

(** [\s] and [trim]: TAB, LF, VT, FF, CR, SP and NBSP are the white
    space and line terminator code units below 256. *)
Definition isWhiteSpace (c : ascii) : bool :=
  existsb (N.eqb (N_of_ascii c)) [9; 10; 11; 12; 13; 32; 160]%N.

(** A string is truthy when it is not empty. *)
Definition truthy (s : string) : bool := negb (String.eqb s "").

(** [s.indexOf(searchString, position)]: the position is clamped to
    [0, s.length]; the result is the first index at or after it where
    [searchString] occurs, and -1 when there is none. *)
Definition indexOf (s searchString : string) (position : Z) : Z :=
  let start := Z.to_nat (Z.min (Z.max position 0) (Z.of_nat (String.length s))) in
  match String.index start searchString s with
  | Some k => Z.of_nat k
  | None => (-1)%Z
  end.

(** [s.split('\n')] *)
Fixpoint split_LF (s : string) : list string :=
  match s with
  | EmptyString => [EmptyString]
  | String c s' =>
      if Ascii.eqb c LF then EmptyString :: split_LF s'
      else match split_LF s' with
           | l :: ls => String c l :: ls
           | [] => [String c EmptyString]
           end
  end.

Fixpoint trimStart (s : string) : string :=
  match s with
  | EmptyString => EmptyString
  | String c s' => if isWhiteSpace c then trimStart s' else s
  end.

Fixpoint trimEnd (s : string) : string :=
  match s with
  | EmptyString => EmptyString
  | String c s' =>
      match trimEnd s' with
      | EmptyString => if isWhiteSpace c then EmptyString else String c EmptyString
      | t => String c t
      end
  end.

Definition trim (s : string) : string := trimEnd (trimStart s).

(** [x || 0] on an optional number. *)
Definition orZero (x : option Z) : Z := default 0%Z x.

End JS.

(** ** The token tree of the [marked] lexer (external library) *)

Module marked.

Inductive TokenType :=
| T_text | T_escape | T_strong | T_em | T_codespan | T_link | T_other.

(** [tokens = None] is a token without a [tokens] property; an array,
    also an empty one, is truthy. *)
Inductive Token :=
| mkToken (type : TokenType) (text : string)
          (tokens : option (list Token)) (href : string).

(** What [inlineTokens] returns for a line without inline markup: one
    text token. *)
Definition textOnly (line : string) : list Token :=
  [mkToken T_text line None EmptyString].

(** A [strong] token as the lexer builds it: the inner text is its one
    child. *)
Definition strongOf (inner : string) : list Token :=
  [mkToken T_strong inner (Some [mkToken T_text inner None EmptyString])
     EmptyString].

(** The tokens of the lexer on the lines that the examples use. *)
Definition exampleTokens (line : string) : list Token :=
  if String.eqb line "**bold text**" then strongOf "bold text"
  else if String.eqb line "**a**" then strongOf "a"
  else if String.eqb line "**b**" then strongOf "b"
  else if String.eqb line "Hello **world**"
       then mkToken T_text "Hello " None EmptyString :: strongOf "world"
  else textOnly line.

End marked.

(** ** Requests of the Docs API (googleapis [docs_v1] schema)

    Every property of a schema object is optional.  Properties that two
    schema types share carry a prefix here, since projections are global
    names. *)

Module docs_v1.

Record Range := {
  range_segmentId : option string;
  startIndex : option Z;
  endIndex : option Z;
  range_tabId : option string }.

Record Location := {
  index : option Z;
  location_segmentId : option string;
  location_tabId : option string }.

(** Colour components are in hundredths (0.95 is 95). *)
Record RgbColor := { red : Z; green : Z; blue : Z }.

Record TextStyle := {
  bold : option bool;
  italic : option bool;
  weightedFontFamily : option (string * Z);
  backgroundColor : option RgbColor;
  link : option string;
  foregroundColor : option RgbColor;
  underline : option bool }.

Record DeleteContentRangeRequest := { dcr_range : option Range }.

Record InsertTextRequest := {
  location : option Location;
  text : string }.

Record UpdateTextStyleRequest := {
  uts_range : option Range;
  textStyle : TextStyle;
  uts_fields : string }.

Record UpdateParagraphStyleRequest := {
  namedStyleType : string;
  ups_range : option Range;
  ups_fields : string }.

(** [Schema$Request]: an object with one optional property per kind of
    request; these are the four kinds that the service builds. *)
Record Request := {
  deleteContentRange : option DeleteContentRangeRequest;
  insertText : option InsertTextRequest;
  updateTextStyle : option UpdateTextStyleRequest;
  updateParagraphStyle : option UpdateParagraphStyleRequest }.

(** A document body: [paragraph.elements[].textRun.content] and
    [table.tableRows[].tableCells[].content[]].  An absent array and an
    empty one behave alike under [?.forEach]; an absent or empty
    [content] string adds nothing. *)
Inductive StructuralElement :=
| paragraph (elements : list (option string))
| table (tableRows : list (list (list StructuralElement)))
| otherElement.

Record Tab := {
  tabProperties_tabId : option string;
  documentTab_body_content : option (list StructuralElement) }.

End docs_v1.

(** ** utils/markdownToDocsRequests.ts *)

Module markdownToDocsRequests.
Import docs_v1.

Inductive RangeType := bold_ | italic_ | code_ | link_ | heading_.

Record FormatRange := {
  start : nat;
  end_ : nat;
  type : RangeType;
  url : option string;
  headingLevel : option nat;
  isParagraph : option bool }.

Record ParsedMarkdown := {
  plainText : string;
  formattingRequests : list Request }.

Definition inlineRange (start end_ : nat) (type : RangeType) : FormatRange :=
  {| start := start; end_ := end_; type := type;
     url := None; headingLevel := None; isParagraph := None |}.

(** The closure state of [parseMarkdownToDocsRequests]: the variables
    [plainText] and [formattingRanges] that [processTokens] updates. *)
Definition Acc : Type := string * list FormatRange.

Definition appendText (s : string) (acc : Acc) : Acc :=
  (fst acc +:+ s, snd acc).

Definition pushRange (r : FormatRange) (acc : Acc) : Acc :=
  (fst acc, snd acc ++ [r]).

(** One round of the [forEach] body of [processTokens]. *)
Fixpoint processToken (token : marked.Token) (acc : Acc) : Acc :=
  match token with
  | marked.mkToken ty text tokens href =>
      let start := String.length (fst acc) in
      let processTokens :=
        fix processTokens (ts : list marked.Token) (acc : Acc) : Acc :=
          match ts with
          | [] => acc
          | t :: ts' => processTokens ts' (processToken t acc)
          end in
      (* [if (token.tokens) processTokens(token.tokens); else plainText += token.text] *)
      let children :=
        match tokens with
        | Some ts => processTokens ts acc
        | None => appendText text acc
        end in
      match ty with
      | marked.T_text | marked.T_escape => children
      | marked.T_strong =>
          pushRange (inlineRange start (String.length (fst children)) bold_) children
      | marked.T_em =>
          pushRange (inlineRange start (String.length (fst children)) italic_) children
      | marked.T_codespan =>
          let acc' := appendText text acc in
          pushRange (inlineRange start (String.length (fst acc')) code_) acc'
      | marked.T_link =>
          pushRange
            {| start := start; end_ := String.length (fst children);
               type := link_; url := Some href;
               headingLevel := None; isParagraph := None |}
            children
      | marked.T_other =>
          match tokens with
          | Some ts => processTokens ts acc
          | None => if JS.truthy text then appendText text acc else acc
          end
      end
  end.

Definition processTokens (tokens : list marked.Token) (acc : Acc) : Acc :=
  fold_left (fun acc t => processToken t acc) tokens acc.

(** *** The heading pattern [/^(#{1,6})\s+(.+)$/]

    A backtracking matcher, greedy as the regular expression is. *)

(** [(.+)$]: the rest of the line, not empty, without line terminator. *)
Fixpoint noLineTerminator (s : string) : bool :=
  match s with
  | EmptyString => true
  | String c s' => negb (JS.isLineTerminator c) && noLineTerminator s'
  end.

Definition matchContent (s : string) : option string :=
  match s with
  | EmptyString => None
  | _ => if noLineTerminator s then Some s else None
  end.

(** [\s+(.+)$]: takes white space while it can, and gives it back one
    code unit at a time when the rest does not match. *)
Fixpoint matchSpaces (s : string) : option string :=
  match s with
  | EmptyString => None
  | String c s' =>
      if JS.isWhiteSpace c then
        match matchSpaces s' with
        | Some content => Some content
        | None => matchContent s'
        end
      else None
  end.

(** [#{1,6}] then the rest; [seen] hashes are taken, [more] may follow. *)
Fixpoint matchHashes (more seen : nat) (s : string) : option (nat * string) :=
  let stop :=
    match seen with
    | O => None
    | S _ => option_map (pair seen) (matchSpaces s)
    end in
  match more, s with
  | S more', String c s' =>
      if Ascii.eqb c "#"%char then
        match matchHashes more' (S seen) s' with
        | Some m => Some m
        | None => stop
        end
      else stop
  | _, _ => stop
  end.

(** [line.match(...)]: the length of group 1 and group 2. *)
Definition headingMatch (line : string) : option (nat * string) :=
  matchHashes 6 0 line.

Section Compiler.

(** [lexer.inlineTokens] of the [marked] library. *)
Variable inlineTokens : string -> list marked.Token.

(** The body of the loop over the lines, before the newline. *)
Definition processLine (line : string) (acc : Acc) : Acc :=
  match headingMatch line with
  | Some (level, content) =>
      let start := String.length (fst acc) in
      let acc' := processTokens (inlineTokens content) acc in
      pushRange
        {| start := start; end_ := String.length (fst acc');
           type := heading_; url := None;
           headingLevel := Some level; isParagraph := Some true |}
        acc'
  | None =>
      if JS.truthy (JS.trim line)
      then processTokens (inlineTokens line) acc
      else acc
  end.

(** [for (let i = 0; i < lines.length; i++)]: a newline follows every
    line but the last. *)
Fixpoint processLines (lines : list string) (acc : Acc) : Acc :=
  match lines with
  | [] => acc
  | line :: rest =>
      let acc' := processLine line acc in
      processLines rest
        (match rest with
         | [] => acc'
         | _ :: _ => appendText (String JS.LF EmptyString) acc'
         end)
  end.

Definition compileRanges (markdown : string) : Acc :=
  processLines (JS.split_LF markdown) (EmptyString, []).

End Compiler.

(** *** Lowering the ranges to requests *)

Definition emptyTextStyle : TextStyle :=
  {| bold := None; italic := None; weightedFontFamily := None;
     backgroundColor := None; link := None; foregroundColor := None;
     underline := None |}.

(** [headingStyles[range.headingLevel] || 'HEADING_1'] *)
Definition headingStyles (level : nat) : option string :=
  match level with
  | 1 => Some "HEADING_1" | 2 => Some "HEADING_2" | 3 => Some "HEADING_3"
  | 4 => Some "HEADING_4" | 5 => Some "HEADING_5" | 6 => Some "HEADING_6"
  | _ => None
  end.

Definition shiftedRange (startIndex : Z) (range : FormatRange) : Range :=
  {| range_segmentId := None;
     startIndex := Some (startIndex + Z.of_nat (start range))%Z;
     endIndex := Some (startIndex + Z.of_nat (end_ range))%Z;
     range_tabId := None |}.

(** The tail of the loop body: [if (fields.length > 0) push updateTextStyle]. *)
Definition pushTextStyle (startIndex : Z) (range : FormatRange)
    (textStyle : TextStyle) (fields : list string)
    (requests : list Request) : list Request :=
  if (0 <? length fields)%nat then
    requests ++
      [ {| deleteContentRange := None; insertText := None;
           updateTextStyle :=
             Some {| uts_range := Some (shiftedRange startIndex range);
                     textStyle := textStyle;
                     uts_fields := String.concat "," fields |};
           updateParagraphStyle := None |} ]
  else requests.

Definition isTruthyLevel (l : option nat) : bool :=
  match l with Some (S _) => true | _ => false end.

Definition isTrue (b : option bool) : bool :=
  match b with Some true => true | _ => false end.

(** One round of [for (const range of formattingRanges)]. *)
Definition lowerRange (startIndex : Z) (requests : list Request)
    (range : FormatRange) : list Request :=
  match type range with
  | bold_ =>
      pushTextStyle startIndex range
        {| bold := Some true; italic := None; weightedFontFamily := None;
           backgroundColor := None; link := None; foregroundColor := None;
           underline := None |}
        ["bold"] requests
  | italic_ =>
      pushTextStyle startIndex range
        {| bold := None; italic := Some true; weightedFontFamily := None;
           backgroundColor := None; link := None; foregroundColor := None;
           underline := None |}
        ["italic"] requests
  | code_ =>
      pushTextStyle startIndex range
        {| bold := None; italic := None;
           weightedFontFamily := Some ("Courier New", 400%Z);
           backgroundColor := Some {| red := 95; green := 95; blue := 95 |};
           link := None; foregroundColor := None; underline := None |}
        ["weightedFontFamily"; "backgroundColor"] requests
  | link_ =>
      match url range with
      | Some u =>
          if JS.truthy u then
            pushTextStyle startIndex range
              {| bold := None; italic := None; weightedFontFamily := None;
                 backgroundColor := None; link := Some u;
                 foregroundColor := Some {| red := 6; green := 33; blue := 80 |};
                 underline := Some true |}
              ["link"; "foregroundColor"; "underline"] requests
          else pushTextStyle startIndex range emptyTextStyle [] requests
      | None => pushTextStyle startIndex range emptyTextStyle [] requests
      end
  | heading_ =>
      if isTruthyLevel (headingLevel range) && isTrue (isParagraph range) then
        (* push updateParagraphStyle, then [continue] *)
        requests ++
          [ {| deleteContentRange := None; insertText := None;
               updateTextStyle := None;
               updateParagraphStyle :=
                 Some {| namedStyleType :=
                           default "HEADING_1"
                             (headingStyles (default 0%nat (headingLevel range)));
                         ups_range := Some (shiftedRange startIndex range);
                         ups_fields := "namedStyleType" |} |} ]
      else pushTextStyle startIndex range emptyTextStyle [] requests
  end.

Definition lowerRanges (startIndex : Z) (ranges : list FormatRange) : list Request :=
  fold_left (lowerRange startIndex) ranges [].

Definition parseMarkdownToDocsRequests
    (inlineTokens : string -> list marked.Token)
    (markdown : string) (startIndex : Z) : ParsedMarkdown :=
  let acc := compileRanges inlineTokens markdown in
  {| plainText := fst acc;
     formattingRequests := lowerRanges startIndex (snd acc) |}.

(** [text.replace(/\n\n+/g, '\n\n')].  Outside a match ([inMatch] false)
    the pattern is tried at the current code unit: two newlines start a
    match, which is replaced by two newlines; inside a match the greedy
    [\n+] takes every further newline. *)
Fixpoint replaceNewlineRuns (inMatch : bool) (s : string) : string :=
  match s with
  | EmptyString => EmptyString
  | String c s' =>
      if inMatch then
        if Ascii.eqb c JS.LF then replaceNewlineRuns true s'
        else String c (replaceNewlineRuns false s')
      else
        match s' with
        | String c' s'' =>
            if Ascii.eqb c JS.LF && Ascii.eqb c' JS.LF
            then String JS.LF (String JS.LF (replaceNewlineRuns true s''))
            else String c (replaceNewlineRuns false s')
        | EmptyString => String c EmptyString
        end
  end.

Definition processMarkdownLineBreaks (text : string) : string :=
  replaceNewlineRuns false text.

End markdownToDocsRequests.

(** ** Asynchronous service methods

    A method body runs against the remote services: it returns, throws an
    error message, or never finishes; the remote calls it makes are
    recorded in order. *)

Module Api.

Inductive Outcome (A : Type) :=
| Returned (a : A)
| Thrown (message : string)
| Diverges.
Arguments Returned {A} a.
Arguments Thrown {A} message.
Arguments Diverges {A}.

Section Monad.
Context {Call : Type}.

Definition M (A : Type) : Type := list Call -> Outcome A * list Call.

Definition ret {A} (a : A) : M A := fun log => (Returned a, log).

Definition throw {A} (message : string) : M A := fun log => (Thrown message, log).

Definition bind {A B} (m : M A) (k : A -> M B) : M B :=
  fun log =>
    match m log with
    | (Returned a, log') => k a log'
    | (Thrown message, log') => (Thrown message, log')
    | (Diverges, log') => (Diverges, log')
    end.

(** [await remote(...)]: the call is recorded, then it resolves or
    rejects. *)
Definition await {A} (call : Call) (response : string + A) : M A :=
  fun log =>
    match response with
    | inr a => (Returned a, log ++ [call])
    | inl message => (Thrown message, log ++ [call])
    end.

(** A local computation that may not terminate. *)
Definition terminating {A} (r : option A) : M A :=
  fun log =>
    match r with
    | Some a => (Returned a, log)
    | None => (Diverges, log)
    end.

(** [try { body } catch (error) { handler(errorMessage) }] *)
Definition tryCatch {A} (body : M A) (handler : string -> M A) : M A :=
  fun log =>
    match body log with
    | (Thrown message, log') => handler message log'
    | r => r
    end.

Definition run {A} (m : M A) : Outcome A * list Call := m [].

End Monad.

(** The [text] of the uniform envelope [{content: [{type: 'text', text}]}]:
    a plain message, or [JSON.stringify] of an error or of a reply. *)
Inductive ToolText :=
| Message (text : string)
| JsonError (error : string)
| JsonReply (fields : list string).

End Api.

#[global] Instance Api_ret {Call} : MRet (Api.M (Call := Call)) :=
  fun A => Api.ret.
#[global] Instance Api_bind {Call} : MBind (Api.M (Call := Call)) :=
  fun A B k m => Api.bind m k.

(** ** services/DocsService.ts *)

Module DocsService.
Import docs_v1 markdownToDocsRequests.

Fixpoint _readStructuralElement (element : StructuralElement) : string :=
  match element with
  | paragraph elements =>
      fold_left
        (fun text pElement =>
           match pElement with
           | Some content => text +:+ content
           | None => text
           end)
        elements EmptyString
  | table tableRows =>
      fold_left
        (fun text row =>
           fold_left
             (fun text cell =>
                fold_left
                  (fun text cellContent => text +:+ _readStructuralElement cellContent)
                  cell text)
             row text)
        tableRows EmptyString
  | otherElement => EmptyString
  end.

Definition _getFullDocumentText (content : option (list StructuralElement)) : string :=
  match content with
  | Some elements =>
      fold_left (fun text element => text +:+ _readStructuralElement element)
        elements EmptyString
  | None => EmptyString
  end.

(** [while ((searchIndex = documentText.indexOf(findText, searchIndex)) !== -1)]:
    [fuel] bounds the number of times the condition is evaluated; [None]
    when that is not enough.  The array [occurrences] is a list without a
    length limit. *)
Fixpoint scanOccurrences (fuel : nat) (documentText findText : string)
    (searchIndex : Z) (occurrences : list Z) : option (list Z) :=
  match fuel with
  | O => None
  | S fuel' =>
      let searchIndex := JS.indexOf documentText findText searchIndex in
      if (searchIndex =? -1)%Z then Some occurrences
      else scanOccurrences fuel' documentText findText
             (searchIndex + Z.of_nat (String.length findText))%Z
             (occurrences ++ [(searchIndex + 1)%Z])
  end.

Section Planner.
Variable tabId : option string.
Variable findText processedText : string.
Variable originalFormattingRequests : list Request.

Definition deleteRequest (adjustedPosition : Z) : Request :=
  {| deleteContentRange :=
       Some {| dcr_range :=
                 Some {| range_segmentId := None;
                         startIndex := Some adjustedPosition;
                         endIndex :=
                           Some (adjustedPosition + Z.of_nat (String.length findText))%Z;
                         range_tabId := tabId |} |};
     insertText := None; updateTextStyle := None;
     updateParagraphStyle := None |}.

Definition insertRequest (adjustedPosition : Z) : Request :=
  {| deleteContentRange := None;
     insertText :=
       Some {| location :=
                 Some {| index := Some adjustedPosition;
                         location_segmentId := None;
                         location_tabId := tabId |};
               text := processedText |};
     updateTextStyle := None; updateParagraphStyle := None |}.

(** [range?.startIndex || 0] and [range?.endIndex || 0] *)
Definition startIndexOr0 (range : option Range) : Z :=
  JS.orZero (range ≫= startIndex).
Definition endIndexOr0 (range : option Range) : Z :=
  JS.orZero (range ≫= endIndex).

(** One round of [for (const formatRequest of originalFormattingRequests)]. *)
Definition pushAdjusted (adjustedPosition : Z) (requests : list Request)
    (formatRequest : Request) : list Request :=
  match updateTextStyle formatRequest with
  | Some uts =>
      requests ++
        [ {| deleteContentRange := None; insertText := None;
             updateTextStyle :=
               Some {| uts_range :=
                         Some {| range_segmentId := None;
                                 startIndex :=
                                   Some (startIndexOr0 (uts_range uts) + adjustedPosition)%Z;
                                 endIndex :=
                                   Some (endIndexOr0 (uts_range uts) + adjustedPosition)%Z;
                                 range_tabId := tabId |};
                       textStyle := textStyle uts;
                       uts_fields := uts_fields uts |};
             updateParagraphStyle := None |} ]
  | None => requests
  end.

(** [for (let i = 0; i < occurrences.length; i++)] *)
Fixpoint emitOccurrences (occurrences : list Z) (cumulativeOffset : Z)
    (requests : list Request) : list Request :=
  match occurrences with
  | [] => requests
  | occurrence :: rest =>
      let adjustedPosition := (occurrence + cumulativeOffset)%Z in
      let requests := requests ++ [deleteRequest adjustedPosition] in
      let requests := requests ++ [insertRequest adjustedPosition] in
      let requests :=
        fold_left (pushAdjusted adjustedPosition) originalFormattingRequests requests in
      let lengthDiff :=
        (Z.of_nat (String.length processedText) - Z.of_nat (String.length findText))%Z in
      emitOccurrences rest (cumulativeOffset + lengthDiff)%Z requests
  end.

Definition _generateReplacementRequests (fuel : nat)
    (content : option (list StructuralElement)) : option (list Request) :=
  let documentText := _getFullDocumentText content in
  match scanOccurrences fuel documentText findText 0 [] with
  | Some occurrences => Some (emitOccurrences occurrences 0 [])
  | None => None
  end.

End Planner.

Definition withRangeTabId (r : Range) (tabId : string) : Range :=
  {| range_segmentId := range_segmentId r; startIndex := startIndex r;
     endIndex := endIndex r; range_tabId := Some tabId |}.

Definition withLocationTabId (l : Location) (tabId : string) : Location :=
  {| index := index l; location_segmentId := location_segmentId l;
     location_tabId := Some tabId |}.

(** The body of the [map] callback of [_addTabIdToFormattingRequests]. *)
Definition addTabId (tabId : string) (req : Request) : Request :=
  let newReq := req in
  let newReq :=
    match updateTextStyle newReq with
    | Some uts =>
        match uts_range uts with
        | Some r =>
            {| deleteContentRange := deleteContentRange newReq;
               insertText := insertText newReq;
               updateTextStyle :=
                 Some {| uts_range := Some (withRangeTabId r tabId);
                         textStyle := textStyle uts;
                         uts_fields := uts_fields uts |};
               updateParagraphStyle := updateParagraphStyle newReq |}
        | None => newReq
        end
    | None => newReq
    end in
  let newReq :=
    match updateParagraphStyle newReq with
    | Some ups =>
        match ups_range ups with
        | Some r =>
            {| deleteContentRange := deleteContentRange newReq;
               insertText := insertText newReq;
               updateTextStyle := updateTextStyle newReq;
               updateParagraphStyle :=
                 Some {| namedStyleType := namedStyleType ups;
                         ups_range := Some (withRangeTabId r tabId);
                         ups_fields := ups_fields ups |} |}
        | None => newReq
        end
    | None => newReq
    end in
  let newReq :=
    match insertText newReq with
    | Some ins =>
        match location ins with
        | Some l =>
            {| deleteContentRange := deleteContentRange newReq;
               insertText :=
                 Some {| location := Some (withLocationTabId l tabId);
                         text := text ins |};
               updateTextStyle := updateTextStyle newReq;
               updateParagraphStyle := updateParagraphStyle newReq |}
        | None => newReq
        end
    | None => newReq
    end in
  newReq.

(** A [tabId] argument is truthy when it is a string that is not empty. *)
Definition truthyTabId (tabId : option string) : option string :=
  match tabId with
  | Some t => if JS.truthy t then Some t else None
  | None => None
  end.

Definition _addTabIdToFormattingRequests (requests : list Request)
    (tabId : option string) : list Request :=
  match truthyTabId tabId with
  | None => requests
  | Some t =>
      if (length requests =? 0)%nat then requests
      else map (addTabId t) requests
  end.

(** The remote calls of the service. *)
Inductive Call :=
| documents_get (documentId : string)
| documents_batchUpdate (documentId : string) (requests : list Request).

Section Service.
(** [authManager.getAuthenticatedClient()] resolves or rejects. *)
Variable getAuthenticatedClient : string + unit.
(** [docs.documents.get]: [res.data.tabs || []], or a rejection. *)
Variable get : string -> string + list Tab.
(** [docs.documents.batchUpdate]: the [documentId] of the reply, or a
    rejection. *)
Variable batchUpdate : string -> list Request -> string + string.
(** [extractDocId] of utils/IdUtils. *)
Variable extractDocId : string -> option string.
Variable inlineTokens : string -> list marked.Token.

Definition getDocsClient : Api.M (Call := Call) unit :=
  match getAuthenticatedClient with
  | inr client => mret client
  | inl message => Api.throw message
  end.

(** [extractDocId(documentId) || documentId] *)
Definition docIdOf (documentId : string) : string :=
  match extractDocId documentId with
  | Some id => if JS.truthy id then id else documentId
  | None => documentId
  end.

(** [tabs.find((t) => t.tabProperties?.tabId === tabId)] *)
Definition findTab (tabs : list Tab) (tabId : string) : option Tab :=
  List.find (fun t => bool_decide (tabProperties_tabId t = Some tabId)) tabs.

Section ReplaceText.
Variable fuel : nat.
Variable findText processedText : string.
Variable originalFormattingRequests : list Request.

(** [for (const tab of tabs)] *)
Fixpoint forEachTab (tabs : list Tab) (requests : list Request)
    : Api.M (Call := Call) (list Request) :=
  match tabs with
  | [] => mret requests
  | tab :: rest =>
      tabRequests ←
        Api.terminating
          (_generateReplacementRequests (tabProperties_tabId tab) findText
             processedText originalFormattingRequests fuel
             (documentTab_body_content tab));
      forEachTab rest (requests ++ tabRequests)
  end.

Definition collectRequests (tabs : list Tab) (tabId : option string)
    : Api.M (Call := Call) (list Request) :=
  match truthyTabId tabId with
  | Some t =>
      match findTab tabs t with
      | None => Api.throw ("Tab with ID " +:+ t +:+ " not found.")
      | Some tab =>
          Api.terminating
            (_generateReplacementRequests (Some t) findText processedText
               originalFormattingRequests fuel
               (documentTab_body_content tab))
      end
  | None => forEachTab tabs []
  end.
End ReplaceText.

(** The [try] block of [replaceText]. *)
Definition replaceText_try (fuel : nat) (documentId findText replaceText : string)
    (tabId : option string) : Api.M (Call := Call) Api.ToolText :=
  let id := docIdOf documentId in
  _ ← getDocsClient;
  let parsed := parseMarkdownToDocsRequests inlineTokens replaceText 0 in
  let processedText := processMarkdownLineBreaks (plainText parsed) in
  tabs ← Api.await (documents_get id) (get id);
  requests ←
    collectRequests fuel findText processedText (formattingRequests parsed)
      tabs tabId;
  _ ← (if (0 <? length requests)%nat
       then Api.await (documents_batchUpdate id requests) (batchUpdate id requests)
       else mret EmptyString);
  mret (Api.Message ("Successfully replaced text in document " +:+ id)).

Definition replaceText (fuel : nat) (documentId findText replaceText : string)
    (tabId : option string) : Api.M (Call := Call) Api.ToolText :=
  Api.tryCatch (replaceText_try fuel documentId findText replaceText tabId)
    (fun errorMessage => mret (Api.JsonError errorMessage)).

(** The batch that [insertText] submits. *)
Definition insertText_requests (text : string) (tabId : option string)
    : list Request :=
  let parsed := parseMarkdownToDocsRequests inlineTokens text 1 in
  let processedText := processMarkdownLineBreaks (plainText parsed) in
  let requests :=
    [ {| deleteContentRange := None;
         docs_v1.insertText :=
           Some {| location :=
                     Some {| index := Some 1%Z; location_segmentId := None;
                             location_tabId := tabId |};
                   docs_v1.text := processedText |};
         updateTextStyle := None; updateParagraphStyle := None |} ] in
  if (0 <? length (formattingRequests parsed))%nat
  then requests ++ _addTabIdToFormattingRequests (formattingRequests parsed) tabId
  else requests.

Definition insertText (documentId text : string) (tabId : option string)
    : Api.M (Call := Call) Api.ToolText :=
  Api.tryCatch
    (let id := docIdOf documentId in
     let requests := insertText_requests text tabId in
     _ ← getDocsClient;
     res ← Api.await (documents_batchUpdate id requests) (batchUpdate id requests);
     mret (Api.JsonReply [res]))
    (fun errorMessage => mret (Api.JsonError errorMessage)).

End Service.
End DocsService.

(** ** services/SlidesService.ts *)

Module slides_v1.

Record SubstringMatchCriteria := { text : string; matchCase : bool }.

Record ReplaceAllTextRequest := {
  containsText : SubstringMatchCriteria;
  replaceText : string }.

Record Request := { replaceAllText : ReplaceAllTextRequest }.

End slides_v1.

Module SlidesService.

Inductive Call :=
| presentations_batchUpdate (presentationId : string)
    (requests : list slides_v1.Request).

Section Service.
Variable getAuthenticatedClient : string + unit.
(** [slides.presentations.batchUpdate]: [response.data.replies]
    (rendered), or a rejection. *)
Variable batchUpdate : string -> list slides_v1.Request -> string + list string.
Variable extractDocId : string -> option string.

Definition getSlidesClient : Api.M (Call := Call) unit :=
  match getAuthenticatedClient with
  | inr client => mret client
  | inl message => Api.throw message
  end.

Definition presentationIdOf (presentationId : string) : string :=
  match extractDocId presentationId with
  | Some id => if JS.truthy id then id else presentationId
  | None => presentationId
  end.

(** [replacements] is given by [Object.entries(replacements)], the
    properties of the object in their order. *)
Definition replaceAllText (presentationId : string)
    (replacements : list (string * string)) : Api.M (Call := Call) Api.ToolText :=
  Api.tryCatch
    (let id := presentationIdOf presentationId in
     _ ← getSlidesClient;
     let requests :=
       map (fun '(key, value) =>
              {| slides_v1.replaceAllText :=
                   {| slides_v1.containsText :=
                        {| slides_v1.text := key; slides_v1.matchCase := true |};
                      slides_v1.replaceText := value |} |})
           replacements in
     if (length requests =? 0)%nat
     then mret (Api.Message "No replacements provided.")
     else
       replies ← Api.await (presentations_batchUpdate id requests)
                   (batchUpdate id requests);
       mret (Api.JsonReply replies))
    (fun errorMessage => mret (Api.JsonError errorMessage)).

End Service.
End SlidesService.

(** ** auth/AuthManager.ts *)

Module AuthManager.

(** A property value of a credential object. *)
Inductive Value :=
| undefined
| str (s : string)
| num (n : Z).

Definition isDefined (v : Value) : bool :=
  match v with undefined => false | _ => true end.

(** [o.key]: a missing property reads as [undefined]. *)
Definition prop (o : gmap string Value) (key : string) : Value :=
  default undefined (o !! key).

(** [{...a, ...b}]: the properties of [b] win. *)
Definition spread (a b : gmap string Value) : gmap string Value := b ∪ a.

(** Modelled from the spec: the merge rule of the Auth Manager (step 3 of
    the refresh algorithm); auth/AuthManager.ts is not among the sources,
    only its test is.  The result is
    [{...previousCredential, ...newCredentialFields}], except that the
    previous [refresh_token] is carried forward when the new fields have
    none. *)
Definition mergeCredentials (previousCredential newCredentialFields : gmap string Value)
    : gmap string Value :=
  let merged := spread previousCredential newCredentialFields in
  if isDefined (prop newCredentialFields "refresh_token") then merged
  else <["refresh_token" := prop previousCredential "refresh_token"]> merged.

(** The in-memory view and the Credential Store (every saved record,
    oldest first). *)
Record AuthSession := {
  credentials : gmap string Value;
  saved : list (gmap string Value) }.

Inductive AuthResult :=
| Refreshed (session : AuthSession)
| AuthRefreshError (message : string).

(** Modelled from the spec: steps 3 to 5 of the refresh algorithm (merge,
    persist, update the last known credential), shared by the three
    refresh paths; auth/AuthManager.ts is not among the sources. *)
Definition mergeAndPersist (session : AuthSession)
    (newCredentialFields : gmap string Value) : AuthSession :=
  let merged := mergeCredentials (credentials session) newCredentialFields in
  {| credentials := merged; saved := saved session ++ [merged] |}.

(** Modelled from the spec: the token-update listener, which receives the
    payload of a token update of the OAuth library. *)
Definition onTokens (session : AuthSession) (tokens : gmap string Value)
    : AuthSession :=
  mergeAndPersist session tokens.

(** Modelled from the spec: the manual [refreshToken]; [endpoint] is the
    reply of the remote refresh endpoint to a refresh token (an error
    message, or the new token set).  Without a refresh token no call is
    made. *)
Definition refreshToken (endpoint : Value -> string + gmap string Value)
    (session : AuthSession) : AuthResult :=
  match prop (credentials session) "refresh_token" with
  | undefined => AuthRefreshError "No refresh token available"
  | refresh_token =>
      match endpoint refresh_token with
      | inl message => AuthRefreshError message
      | inr newTokens => Refreshed (mergeAndPersist session newTokens)
      end
  end.

(** Modelled from the spec: the proactive refresh of
    [getAuthenticatedClient], taken when the expiry of the last known
    credential is not after [now] plus the safety [margin]. *)
Definition isExpired (now margin : Z) (credential : gmap string Value) : bool :=
  match prop credential "expiry_date" with
  | num expiry => (expiry <=? now + margin)%Z
  | _ => false
  end.

Definition getAuthenticatedClient (endpoint : Value -> string + gmap string Value)
    (now margin : Z) (session : AuthSession) : AuthResult :=
  if isExpired now margin (credentials session)
  then refreshToken endpoint session
  else Refreshed session.

End AuthManager.

(** ** The specification's reading of the operations

    Definitions that follow the words of the specification, to be compared
    with the definitions taken from the sources. *)

Module Spec.
Import docs_v1.

(** The maximal runs of equal code units of a string, in order. *)
Fixpoint runs (s : string) : list (ascii * nat) :=
  match s with
  | EmptyString => []
  | String c s' =>
      match runs s' with
      | (c', n) :: rs =>
          if Ascii.eqb c c' then (c, S n) :: rs else (c, 1%nat) :: (c', n) :: rs
      | [] => [(c, 1%nat)]
      end
  end.

(** [n] times the code unit [c], then [rest]. *)
Fixpoint repeatThen (c : ascii) (n : nat) (rest : string) : string :=
  match n with
  | O => rest
  | S n' => String c (repeatThen c n' rest)
  end.

(** The string that a list of runs spells. *)
Fixpoint unruns (rs : list (ascii * nat)) : string :=
  match rs with
  | [] => EmptyString
  | (c, n) :: rs' => repeatThen c n (unruns rs')
  end.

(** A run of two or more newlines becomes exactly two newlines; every
    other run is left as it is. *)
Definition collapseRun (r : ascii * nat) : ascii * nat :=
  if Ascii.eqb (fst r) JS.LF && (2 <=? snd r)%nat then (fst r, 2%nat) else r.

Definition collapseNewlineRuns (s : string) : string :=
  unruns (map collapseRun (runs s)).

(** Runs are well formed: no empty run, neighbours differ. *)
Fixpoint wfRuns (rs : list (ascii * nat)) : Prop :=
  match rs with
  | [] => True
  | (c, n) :: rs' =>
      (0 < n)%nat /\
      match rs' with
      | [] => True
      | (c', _) :: _ => c <> c'
      end /\ wfRuns rs'
  end.

(** What is left of the runs once a match has taken the newlines at
    the front. *)
Definition dropNewlineRun (rs : list (ascii * nat)) : list (ascii * nat) :=
  match rs with
  | (c, _) :: rs' => if Ascii.eqb c JS.LF then rs' else rs
  | [] => []
  end.

Definition afterRun (s : string) : string :=
  unruns (map collapseRun (dropNewlineRun (runs s))).

(** *** The plan of the text-replacement planner *)

Section Plan.
Variable tabId : option string.
Variable findText processedText : string.
Variable styleOps : list Request.

(** A range moved by [adjustedPosition], on the tab of the plan. *)
Definition reanchoredRange (adjustedPosition : Z) (range : option Range) : Range :=
  {| range_segmentId := None;
     startIndex := Some (JS.orZero (range ≫= startIndex) + adjustedPosition)%Z;
     endIndex := Some (JS.orZero (range ≫= endIndex) + adjustedPosition)%Z;
     range_tabId := tabId |}.

Definition reanchoredTextStyle (adjustedPosition : Z)
    (uts : UpdateTextStyleRequest) : UpdateTextStyleRequest :=
  {| uts_range := Some (reanchoredRange adjustedPosition (uts_range uts));
     textStyle := textStyle uts; uts_fields := uts_fields uts |}.

Definition reanchoredParagraphStyle (adjustedPosition : Z)
    (ups : UpdateParagraphStyleRequest) : UpdateParagraphStyleRequest :=
  {| namedStyleType := namedStyleType ups;
     ups_range := Some (reanchoredRange adjustedPosition (ups_range ups));
     ups_fields := ups_fields ups |}.

(** "For each style op, re-anchor it by adding [adjustedPosition] to
    both its start and end": every style operation, a heading's
    [updateParagraphStyle] included. *)
Definition reanchorEvery (adjustedPosition : Z) (op : Request) : Request :=
  {| deleteContentRange := deleteContentRange op;
     insertText := insertText op;
     updateTextStyle := reanchoredTextStyle adjustedPosition <$> updateTextStyle op;
     updateParagraphStyle :=
       reanchoredParagraphStyle adjustedPosition <$> updateParagraphStyle op |}.

(** The same for the [updateTextStyle] operations alone; any other
    operation is left out. *)
Definition reanchorTextStyleOnly (adjustedPosition : Z) (op : Request)
    : option Request :=
  uts ← updateTextStyle op;
  Some {| deleteContentRange := None; insertText := None;
          updateTextStyle := Some (reanchoredTextStyle adjustedPosition uts);
          updateParagraphStyle := None |}.

Definition deleteOp (adjustedPosition : Z) : Request :=
  {| deleteContentRange :=
       Some {| dcr_range :=
                 Some {| range_segmentId := None;
                         startIndex := Some adjustedPosition;
                         endIndex :=
                           Some (adjustedPosition + Z.of_nat (String.length findText))%Z;
                         range_tabId := tabId |} |};
     insertText := None; updateTextStyle := None;
     updateParagraphStyle := None |}.

Definition insertOp (adjustedPosition : Z) : Request :=
  {| deleteContentRange := None;
     insertText :=
       Some {| location :=
                 Some {| index := Some adjustedPosition;
                         location_segmentId := None;
                         location_tabId := tabId |};
               text := processedText |};
     updateTextStyle := None; updateParagraphStyle := None |}.

(** The operations of one occurrence as the specification words them:
    delete, insert, then every style operation re-anchored. *)
Definition blockOfEveryStyle (adjustedPosition : Z) : list Request :=
  deleteOp adjustedPosition :: insertOp adjustedPosition ::
  map (reanchorEvery adjustedPosition) styleOps.

(** The operations of one occurrence with the text styles alone. *)
Definition blockOfTextStyles (adjustedPosition : Z) : list Request :=
  deleteOp adjustedPosition :: insertOp adjustedPosition ::
  omap (reanchorTextStyleOnly adjustedPosition) styleOps.

Definition lengthDiff : Z :=
  (Z.of_nat (String.length processedText) - Z.of_nat (String.length findText))%Z.

(** Occurrence [i] (from 0) is handled at
    [occurrence + i * lengthDiff]: the cumulative offset starts at 0
    and grows by [lengthDiff] after each occurrence. *)
Definition plan (block : Z -> list Request) (occurrences : list Z) : list Request :=
  concat (imap (fun i occurrence => block (occurrence + Z.of_nat i * lengthDiff)%Z)
            occurrences).

End Plan.

(** A heading range as the compiler makes it: a paragraph range with a
    level from 1 to 6. *)
Definition compiledHeading (r : markdownToDocsRequests.FormatRange) : Prop :=
  markdownToDocsRequests.type r = markdownToDocsRequests.heading_ ->
  markdownToDocsRequests.isParagraph r = Some true /\
  exists level,
    markdownToDocsRequests.headingLevel r = Some level /\ (1 <= level <= 6)%nat.

(** [findText] has zero occurrences in the text of a tab. *)
Definition noOccurrence (findText : string) (tab : Tab) : Prop :=
  JS.indexOf
    (DocsService._getFullDocumentText (documentTab_body_content tab)) findText 0
  = (-1)%Z.

(** *** Requests up to the tab identifiers that [_addTabIdToFormattingRequests] writes *)

Definition withoutRangeTabId (r : Range) : Range :=
  {| range_segmentId := range_segmentId r; startIndex := startIndex r;
     endIndex := endIndex r; range_tabId := None |}.

(** A request with the [tabId] of [updateTextStyle.range], of
    [updateParagraphStyle.range] and of [insertText.location] blanked;
    every other field, [deleteContentRange] included, stays. *)
Definition eraseTabIds (req : Request) : Request :=
  {| deleteContentRange := deleteContentRange req;
     insertText :=
       (fun ins =>
          {| location :=
               (fun l => {| index := index l;
                            location_segmentId := location_segmentId l;
                            location_tabId := None |}) <$> location ins;
             text := text ins |}) <$> insertText req;
     updateTextStyle :=
       (fun uts =>
          {| uts_range := withoutRangeTabId <$> uts_range uts;
             textStyle := textStyle uts; uts_fields := uts_fields uts |})
         <$> updateTextStyle req;
     updateParagraphStyle :=
       (fun ups =>
          {| namedStyleType := namedStyleType ups;
             ups_range := withoutRangeTabId <$> ups_range ups;
             ups_fields := ups_fields ups |})
         <$> updateParagraphStyle req |}.

(** The three tab identifiers of a request, where the range or the
    location exists. *)
Definition tabIdsOf (req : Request) : list (option string) :=
  option_list (range_tabId <$> (updateTextStyle req ≫= uts_range))
  ++ option_list (range_tabId <$> (updateParagraphStyle req ≫= ups_range))
  ++ option_list (location_tabId <$> (insertText req ≫= location)).

(** The named style of a heading of a level: [HEADING_] followed by the
    decimal digit of the level. *)
Definition headingStyleName (level : nat) : string :=
  "HEADING_" +:+ String (ascii_of_nat (48 + level)) EmptyString.


End Spec.

(** ** services/DocsService.ts: getText and appendText

    These two methods read more of a tab than its text: the title of the
    tab and the [endIndex] of the elements of its body. *)

Module DocsReads.
Import docs_v1 markdownToDocsRequests DocsService.

(** A structural element with its [endIndex]. *)
Record Element := {
  structuralElement : StructuralElement;
  element_endIndex : option Z }.

(** A tab: [tabProperties.tabId], [tabProperties.title] and
    [documentTab.body.content]. *)
Record DocTab := {
  tab_tabId : option string;
  tab_title : option string;
  tab_content : option (list Element) }.

(** The tab as [replaceText] reads it. *)
Definition toTab (tab : DocTab) : Tab :=
  {| tabProperties_tabId := tab_tabId tab;
     documentTab_body_content := map structuralElement <$> tab_content tab |}.

(** [content.forEach((element) => { text += this._readStructuralElement(element) })] *)
Definition readContent (content : list Element) : string :=
  fold_left
    (fun text element => text +:+ _readStructuralElement (structuralElement element))
    content EmptyString.

(** An entry of [tabsData]. *)
Record TabData := {
  data_tabId : option string;
  data_title : option string;
  data_content : string;
  data_index : nat }.

(** The [text] of the envelope of [getText]: the plain text, the
    [JSON.stringify] of [tabsData], or of an error. *)
Inductive GetTextText :=
| PlainText (text : string)
| TabsJson (tabsData : list TabData)
| ErrorJson (error : string).

(** [tabs.find((t) => t.tabProperties?.tabId === tabId)] *)
Definition findDocTab (tabs : list DocTab) (tabId : string) : option DocTab :=
  List.find (fun t => bool_decide (tab_tabId t = Some tabId)) tabs.

(** The text of a tab whose body may be absent. *)
Definition tabText (tab : DocTab) : string :=
  match tab_content tab with
  | Some content => readContent content
  | None => EmptyString
  end.

(** [lastElement?.endIndex || 1], then [Math.max(1, endIndex - 1)]. *)
Definition locationIndexOf (content : option (list Element)) : Z :=
  let lastElement := content ≫= last in
  let endIndex :=
    match lastElement ≫= element_endIndex with
    | Some e => if (e =? 0)%Z then 1%Z else e
    | None => 1%Z
    end in
  Z.max 1 (endIndex - 1).

Section Service.
Variable getAuthenticatedClient : string + unit.
(** [docs.documents.get]: [res.data.tabs || []], or a rejection. *)
Variable get : string -> string + list DocTab.
Variable batchUpdate : string -> list Request -> string + string.
Variable extractDocId : string -> option string.
(** [extractDocumentId] of utils/validation: the id, or an error thrown. *)
Variable validateAndExtractDocId : string -> string + string.
Variable inlineTokens : string -> list marked.Token.

Definition getDocsClient : Api.M (Call := Call) unit :=
  match getAuthenticatedClient with
  | inr client => mret client
  | inl message => Api.throw message
  end.

Definition docIdOf (documentId : string) : string :=
  match extractDocId documentId with
  | Some id => if JS.truthy id then id else documentId
  | None => documentId
  end.

Definition getText (documentId : string) (tabId : option string)
    : Api.M (Call := Call) GetTextText :=
  Api.tryCatch
    (id ← match validateAndExtractDocId documentId with
          | inr id => mret id
          | inl message => Api.throw message
          end;
     _ ← getDocsClient;
     tabs ← Api.await (documents_get id) (get id);
     match truthyTabId tabId with
     | Some t =>
         match findDocTab tabs t with
         | None => Api.throw ("Tab with ID " +:+ t +:+ " not found.")
         | Some tab =>
             match tab_content tab with
             | None => mret (PlainText EmptyString)
             | Some content => mret (PlainText (readContent content))
             end
         end
     | None =>
         match tabs with
         | [] => mret (PlainText EmptyString)
         | [tab] => mret (PlainText (tabText tab))
         | _ =>
             mret (TabsJson
                     (imap (fun index tab =>
                              {| data_tabId := tab_tabId tab;
                                 data_title := tab_title tab;
                                 data_content := tabText tab;
                                 data_index := index |})
                        tabs))
         end
     end)
    (fun errorMessage => mret (ErrorJson errorMessage)).

(** The body that [appendText] appends to: of the tab with [tabId], or of
    the first tab. *)
Definition appendContent (tabs : list DocTab) (tabId : option string)
    : Api.M (Call := Call) (option (list Element)) :=
  match truthyTabId tabId with
  | Some t =>
      match findDocTab tabs t with
      | None => Api.throw ("Tab with ID " +:+ t +:+ " not found.")
      | Some tab => mret (tab_content tab)
      end
  | None =>
      match tabs with
      | tab :: _ => mret (tab_content tab)
      | [] => mret None
      end
  end.

(** The batch that [appendText] submits for a body. *)
Definition appendText_requests (content : option (list Element))
    (text : string) (tabId : option string) : list Request :=
  let locationIndex := locationIndexOf content in
  let parsed := parseMarkdownToDocsRequests inlineTokens text locationIndex in
  let processedText := processMarkdownLineBreaks (plainText parsed) in
  let requests :=
    [ {| deleteContentRange := None;
         docs_v1.insertText :=
           Some {| location :=
                     Some {| index := Some locationIndex;
                             location_segmentId := None;
                             location_tabId := tabId |};
                   docs_v1.text := processedText |};
         updateTextStyle := None; updateParagraphStyle := None |} ] in
  if (0 <? length (formattingRequests parsed))%nat
  then requests ++ _addTabIdToFormattingRequests (formattingRequests parsed) tabId
  else requests.

Definition appendText (documentId text : string) (tabId : option string)
    : Api.M (Call := Call) Api.ToolText :=
  Api.tryCatch
    (let id := docIdOf documentId in
     _ ← getDocsClient;
     tabs ← Api.await (documents_get id) (get id);
     content ← appendContent tabs tabId;
     let requests := appendText_requests content text tabId in
     _ ← Api.await (documents_batchUpdate id requests) (batchUpdate id requests);
     mret (Api.Message ("Successfully appended text to document " +:+ id)))
    (fun errorMessage => mret (Api.JsonError errorMessage)).

End Service.
End DocsReads.

(** ** Readings used by the further properties *)

Module Props.
Import docs_v1 markdownToDocsRequests.

(** The range that a style request addresses. *)
Definition styleRange (req : Request) : option Range :=
  match updateTextStyle req with
  | Some uts => uts_range uts
  | None => updateParagraphStyle req ≫= ups_range
  end.

(** A range on a tab. *)
Definition rangeOnTab (tabId : option string) (r : Range) : Range :=
  {| range_segmentId := range_segmentId r; startIndex := startIndex r;
     endIndex := endIndex r; range_tabId := tabId |}.

(** The [updateTextStyle] of a request, on a tab; nothing for any other
    request. *)
Definition textStyleOnTab (tabId : option string) (req : Request) : option Request :=
  uts ← updateTextStyle req;
  Some {| deleteContentRange := None; insertText := None;
          updateTextStyle :=
            Some {| uts_range := rangeOnTab tabId <$> uts_range uts;
                    textStyle := textStyle uts; uts_fields := uts_fields uts |};
          updateParagraphStyle := None |}.

(** Every range lies within a text of [n] code units. *)
Definition rangesWithin (n : nat) (ranges : list FormatRange) : Prop :=
  Forall (fun r => (start r <= end_ r <= n)%nat) ranges.

(** The compiler state only grows: the text gets longer, and ranges that
    lie within the text keep doing so. *)
Definition grows (acc acc' : Acc) : Prop :=
  (String.length (fst acc) <= String.length (fst acc'))%nat /\
  (rangesWithin (String.length (fst acc)) (snd acc) ->
   rangesWithin (String.length (fst acc')) (snd acc')).

(** A string of white space ([\s]) only. *)
Fixpoint allWhiteSpace (s : string) : bool :=
  match s with
  | EmptyString => true
  | String c s' => JS.isWhiteSpace c && allWhiteSpace s'
  end.

(** A string that begins with a code unit that is not white space. *)
Definition startsWithoutSpace (s : string) : bool :=
  match s with
  | EmptyString => false
  | String c _ => negb (JS.isWhiteSpace c)
  end.

(** [occurrences] are the leftmost occurrences of [findText] in
    [documentText] that do not overlap, from position [from] on: each one
    (a 1-based index) is the first match at or after the end of the one
    before, and after the last one there is no match. *)
Fixpoint leftmostFrom (documentText findText : string) (from : nat)
    (occurrences : list Z) : Prop :=
  match occurrences with
  | [] =>
      forall p, (from <= p)%nat ->
        substring p (String.length findText) documentText <> findText
  | occurrence :: rest =>
      exists k : nat,
        occurrence = (Z.of_nat k + 1)%Z /\
        (from <= k)%nat /\
        (k + String.length findText <= String.length documentText)%nat /\
        substring k (String.length findText) documentText = findText /\
        (forall p, (from <= p < k)%nat ->
           substring p (String.length findText) documentText <> findText) /\
        leftmostFrom documentText findText (k + String.length findText) rest
  end.

(** The tab of every range and location of a request. *)
Definition addressedTabs (req : Request) : list (option string) :=
  option_list (range_tabId <$> (deleteContentRange req ≫= dcr_range))
  ++ option_list (location_tabId <$> (insertText req ≫= location))
  ++ option_list (range_tabId <$> (updateTextStyle req ≫= uts_range))
  ++ option_list (range_tabId <$> (updateParagraphStyle req ≫= ups_range)).


(** *** The text that the requests of a plan address

    The text of a tab read as a buffer whose first code unit has index 1
    (the planner records position [p] of the text as index [p + 1]):
    [deleteContentRange] removes the code units of [startIndex, endIndex),
    [insertText] puts its text before [index], and a style request leaves
    the text as it is. *)

Fixpoint takeUnits (n : nat) (s : string) : string :=
  match n, s with
  | S n', String c s' => String c (takeUnits n' s')
  | _, _ => EmptyString
  end.

Fixpoint dropUnits (n : nat) (s : string) : string :=
  match n, s with
  | S n', String c s' => dropUnits n' s'
  | _, _ => s
  end.

Definition applyToText (buffer : string) (req : Request) : string :=
  match deleteContentRange req ≫= dcr_range, insertText req with
  | Some range, _ =>
      takeUnits (Z.to_nat (JS.orZero (startIndex range) - 1)) buffer
      +:+ dropUnits (Z.to_nat (JS.orZero (endIndex range) - 1)) buffer
  | None, Some ins =>
      let at_ := Z.to_nat (JS.orZero (location ins ≫= index) - 1) in
      takeUnits at_ buffer +:+ text ins +:+ dropUnits at_ buffer
  | None, None => buffer
  end.

Definition applyBatch (requests : list Request) (buffer : string) : string :=
  fold_left applyToText requests buffer.

(** [s] with every occurrence of [findText] replaced by [replacement],
    from left to right, an occurrence being taken whole before the search
    goes on ([skip] code units of a taken occurrence are still to pass). *)
Fixpoint replaceEvery (findText replacement : string) (skip : nat) (s : string)
    : string :=
  match s with
  | EmptyString => EmptyString
  | String c s' =>
      match skip with
      | S skip' => replaceEvery findText replacement skip' s'
      | O =>
          if String.prefix findText s
          then replacement
               +:+ replaceEvery findText replacement
                     (String.length findText - 1) s'
          else String c (replaceEvery findText replacement 0 s')
      end
  end.

(** *** Slides: the entry a request was made from *)

Definition entryOf (request : slides_v1.Request) : string * string :=
  (slides_v1.text (slides_v1.containsText (slides_v1.replaceAllText request)),
   slides_v1.replaceText (slides_v1.replaceAllText request)).

Definition matchesCase (request : slides_v1.Request) : bool :=
  slides_v1.matchCase (slides_v1.containsText (slides_v1.replaceAllText request)).

End Props.

(** * Properties *)

(** ** Line breaks *)

Section LineBreaks.
Import markdownToDocsRequests Spec.

Lemma runs_cons_head c s :
  exists n rs, runs (String c s) = (c, S n) :: rs.
Proof.
  simpl. destruct (runs s) as [|[c' n] rs]; [eauto|].
  destruct (Ascii.eqb c c'); eauto.
Qed.

Lemma runs_wf s : wfRuns (runs s).
Proof.
  induction s as [|c s IH]; simpl; [exact I|].
  destruct (runs s) as [|[c' n] rs] eqn:E; simpl; [intuition lia|].
  destruct (Ascii.eqb_spec c c') as [->|Hne]; simpl in *.
  - destruct IH as (Hn & Hd & Hw). repeat split; [lia| |assumption].
    destruct rs as [|[c2 n2] rs]; assumption.
  - repeat split; try lia; tauto.
Qed.

Lemma unruns_runs s : unruns (runs s) = s.
Proof.
  induction s as [|c s IH]; simpl; [reflexivity|].
  destruct (runs s) as [|[c' n] rs] eqn:E; simpl in *.
  - now rewrite <- IH.
  - destruct (Ascii.eqb_spec c c') as [->|Hne]; simpl; now rewrite <- IH.
Qed.

Lemma runs_unruns rs : wfRuns rs -> runs (unruns rs) = rs.
Proof.
  induction rs as [|[c n] rs IH]; simpl; [reflexivity|].
  intros (Hn & Hd & Hw). specialize (IH Hw).
  destruct n as [|n]; [lia|]. clear Hn.
  induction n as [|n IHn]; simpl in *.
  - rewrite IH. destruct rs as [|[c' n'] rs]; [reflexivity|].
    destruct (Ascii.eqb_spec c c'); [contradiction|reflexivity].
  - rewrite IHn. now rewrite Ascii.eqb_refl.
Qed.


Lemma collapseRun_fst r : fst (collapseRun r) = fst r.
Proof. unfold collapseRun. now destruct (_ && _). Qed.

Lemma collapseRun_pos r : (0 < snd r)%nat -> (0 < snd (collapseRun r))%nat.
Proof. intros H. unfold collapseRun. destruct (_ && _); simpl; lia. Qed.


Lemma collapse_wf rs : wfRuns rs -> wfRuns (map collapseRun rs).
Proof.
  induction rs as [|[c n] rs IH]; simpl; [trivial|].
  intros (Hn & Hd & Hw).
  pose proof (collapseRun_fst (c, n)) as Hf.
  pose proof (collapseRun_pos (c, n) Hn) as Hp.
  destruct (collapseRun (c, n)) as [c1 n1]; simpl in *; subst c1.
  repeat split; [assumption| |auto].
  destruct rs as [|[c' n'] rs]; simpl; [trivial|].
  pose proof (collapseRun_fst (c', n')) as Hf'.
  destruct (collapseRun (c', n')) as [c2 n2]; simpl in *. now subst c2.
Qed.



Lemma collapseRun_other c n : c <> JS.LF -> collapseRun (c, n) = (c, n).
Proof.
  intros Hc. unfold collapseRun; cbn [fst snd].
  destruct (Ascii.eqb_spec c JS.LF); [contradiction|reflexivity].
Qed.

Lemma collapse_cons_other c s :
  c <> JS.LF -> collapseNewlineRuns (String c s) = String c (collapseNewlineRuns s).
Proof.
  intros Hc. unfold collapseNewlineRuns. cbn [runs].
  destruct (runs s) as [|[c' n] rs]; cbn [map].
  - now rewrite collapseRun_other.
  - destruct (Ascii.eqb_spec c c') as [<-|Hne]; cbn [map].
    + now rewrite !collapseRun_other.
    + now rewrite (collapseRun_other c).
Qed.

Lemma collapse_LF_LF s :
  collapseNewlineRuns (String JS.LF (String JS.LF s)) =
  String JS.LF (String JS.LF (afterRun (String JS.LF s))).
Proof.
  unfold collapseNewlineRuns, afterRun.
  destruct (runs_cons_head JS.LF s) as (n & rs & E).
  change (runs (String JS.LF (String JS.LF s)))
    with (match runs (String JS.LF s) with
          | (c', n) :: rs =>
              if Ascii.eqb JS.LF c' then (JS.LF, S n) :: rs
              else (JS.LF, 1%nat) :: (c', n) :: rs
          | [] => [(JS.LF, 1%nat)]
          end).
  rewrite E. reflexivity.
Qed.

Lemma collapse_LF_other c s :
  c <> JS.LF ->
  collapseNewlineRuns (String JS.LF (String c s)) =
  String JS.LF (collapseNewlineRuns (String c s)).
Proof.
  intros Hc. unfold collapseNewlineRuns.
  destruct (runs_cons_head c s) as (n & rs & E).
  change (runs (String JS.LF (String c s)))
    with (match runs (String c s) with
          | (c', n) :: rs =>
              if Ascii.eqb JS.LF c' then (JS.LF, S n) :: rs
              else (JS.LF, 1%nat) :: (c', n) :: rs
          | [] => [(JS.LF, 1%nat)]
          end).
  rewrite E. destruct (Ascii.eqb_spec JS.LF c) as [<-|_]; [contradiction|].
  reflexivity.
Qed.

Lemma afterRun_LF s : afterRun (String JS.LF s) = afterRun s.
Proof.
  unfold afterRun. cbn [runs].
  destruct (runs s) as [|[c' n] rs]; [reflexivity|].
  destruct (Ascii.eqb_spec JS.LF c') as [<-|Hne]; cbn [dropNewlineRun].
  - reflexivity.
  - destruct (Ascii.eqb_spec c' JS.LF) as [->|_]; [contradiction|].
    reflexivity.
Qed.

Lemma afterRun_other c s :
  c <> JS.LF -> afterRun (String c s) = String c (collapseNewlineRuns s).
Proof.
  intros Hc. rewrite <- collapse_cons_other by assumption.
  unfold afterRun, collapseNewlineRuns.
  destruct (runs_cons_head c s) as (n & rs & ->). cbn [dropNewlineRun].
  destruct (Ascii.eqb_spec c JS.LF); [contradiction|reflexivity].
Qed.

Lemma replace_cons_other c s :
  c <> JS.LF ->
  replaceNewlineRuns false (String c s) = String c (replaceNewlineRuns false s).
Proof.
  intros Hc. cbn [replaceNewlineRuns].
  destruct (Ascii.eqb_spec c JS.LF); [contradiction|].
  destruct s; reflexivity.
Qed.

(** The replacement loop computes the collapse of the newline runs. *)
Lemma replaceNewlineRuns_runs s :
  replaceNewlineRuns false s = collapseNewlineRuns s /\
  replaceNewlineRuns true s = afterRun s.
Proof.
  induction s as [|c s [IHf IHt]]; [split; reflexivity|].
  destruct (Ascii.eqb_spec c JS.LF) as [->|Hc].
  - split.
    + destruct s as [|c' s]; [reflexivity|].
      destruct (Ascii.eqb_spec c' JS.LF) as [->|Hc'].
      * rewrite collapse_LF_LF, <- IHt. reflexivity.
      * rewrite collapse_LF_other by assumption. rewrite <- IHf.
        cbn [replaceNewlineRuns].
        destruct (Ascii.eqb_spec c' JS.LF); [contradiction|].
        reflexivity.
    + rewrite afterRun_LF, <- IHt. reflexivity.
  - split.
    + rewrite replace_cons_other, collapse_cons_other by assumption.
      now rewrite IHf.
    + rewrite afterRun_other by assumption. rewrite <- IHf.
      cbn [replaceNewlineRuns].
      destruct (Ascii.eqb_spec c JS.LF); [contradiction|reflexivity].
Qed.

End LineBreaks.

(** ** The text-replacement planner *)

Section PlannerFacts.
Import DocsService docs_v1.

Lemma index_empty (s : string) (n : nat) :
  (n <= String.length s)%nat -> String.index n EmptyString s = Some n.
Proof.
  revert n. induction s as [|c s IH]; intros [|n] Hn; simpl in *;
    try reflexivity; try lia.
  rewrite IH by lia. reflexivity.
Qed.

Lemma prefix_length (p s : string) :
  String.prefix p s = true -> (String.length p <= String.length s)%nat.
Proof.
  revert s. induction p as [|a p IH]; intros [|b s]; simpl; try lia;
    try discriminate.
  destruct (ascii_dec a b); [|discriminate].
  intros H. apply IH in H. lia.
Qed.

Lemma index_bounds (s p : string) (n m : nat) :
  String.index n p s = Some m ->
  (n <= m)%nat /\ (m + String.length p <= String.length s)%nat.
Proof.
  revert n m. induction s as [|c s IH]; intros n m; cbn -[String.prefix].
  - destruct n; [|discriminate]. destruct p; [|discriminate].
    intros [= ?]; subst. simpl. lia.
  - destruct n as [|n].
    + destruct (String.prefix p (String c s)) eqn:Ep.
      * intros [= ?]; subst. apply prefix_length in Ep. simpl in Ep. lia.
      * destruct (String.index 0 p s) as [k|] eqn:Ek; [|discriminate].
        intros [= ?]; subst. apply IH in Ek. lia.
    + destruct (String.index n p s) as [k|] eqn:Ek; [|discriminate].
      intros [= ?]; subst. apply IH in Ek. lia.
Qed.

(** With an empty search string [indexOf] answers the clamped position,
    never -1. *)
Lemma indexOf_empty (s : string) (position : Z) :
  JS.indexOf s EmptyString position
  = Z.min (Z.max position 0) (Z.of_nat (String.length s)).
Proof.
  unfold JS.indexOf. rewrite index_empty by lia. lia.
Qed.

Lemma indexOf_bounds (s p : string) (position k : Z) :
  (0 <= position)%Z ->
  JS.indexOf s p position = k -> k <> (-1)%Z ->
  (Z.min position (Z.of_nat (String.length s)) <= k)%Z /\
  (k + Z.of_nat (String.length p) <= Z.of_nat (String.length s))%Z.
Proof.
  unfold JS.indexOf. intros Hpos.
  destruct (String.index _ p s) as [m|] eqn:E; [|congruence].
  intros <- _. apply index_bounds in E. lia.
Qed.

(** The scan with an empty [findText] never leaves the loop. *)
Lemma scanOccurrences_empty fuel documentText searchIndex occurrences :
  scanOccurrences fuel documentText EmptyString searchIndex occurrences = None.
Proof.
  revert searchIndex occurrences.
  induction fuel as [|fuel IH]; intros searchIndex occurrences; simpl;
    [reflexivity|].
  rewrite indexOf_empty.
  destruct (Z.eqb_spec (Z.min (Z.max searchIndex 0)
                          (Z.of_nat (String.length documentText))) (-1)); [lia|].
  apply IH.
Qed.

(** With a [findText] that is not empty the scan ends within
    [length documentText + 1] evaluations of the loop condition. *)
Lemma scanOccurrences_terminates fuel documentText findText searchIndex occurrences :
  findText <> EmptyString ->
  (0 <= searchIndex <= Z.of_nat (String.length documentText))%Z ->
  (Z.of_nat (String.length documentText) - searchIndex < Z.of_nat fuel)%Z ->
  exists found, scanOccurrences fuel documentText findText searchIndex occurrences
                = Some found.
Proof.
  intros Hne. revert searchIndex occurrences.
  induction fuel as [|fuel IH]; intros searchIndex occurrences Hpos Hfuel; simpl;
    [lia|].
  destruct (Z.eqb_spec (JS.indexOf documentText findText searchIndex) (-1))
    as [|Hfound]; [eauto|].
  destruct (indexOf_bounds documentText findText searchIndex _
              (proj1 Hpos) eq_refl Hfound) as [Hlo Hhi].
  assert (0 < String.length findText)%nat
    by (destruct findText; [congruence|simpl; lia]).
  apply IH; lia.
Qed.

(** More fuel does not change a result. *)
Lemma scanOccurrences_more_fuel fuel fuel' documentText findText searchIndex
    occurrences found :
  scanOccurrences fuel documentText findText searchIndex occurrences = Some found ->
  (fuel <= fuel')%nat ->
  scanOccurrences fuel' documentText findText searchIndex occurrences = Some found.
Proof.
  revert fuel' searchIndex occurrences.
  induction fuel as [|fuel IH]; intros fuel' searchIndex occurrences; simpl;
    [discriminate|].
  intros H Hle. destruct fuel' as [|fuel']; [lia|]. simpl.
  destruct (Z.eqb _ _); [assumption|]. apply IH; [assumption|lia].
Qed.

Section Emit.
Variable tabId : option string.
Variable findText processedText : string.
Variable originalFormattingRequests : list Request.

Lemma pushAdjusted_fold adjustedPosition (fmt requests : list Request) :
  fold_left (pushAdjusted tabId adjustedPosition) fmt requests
  = requests ++ omap (Spec.reanchorTextStyleOnly tabId adjustedPosition) fmt.
Proof.
  revert requests. induction fmt as [|op fmt IH]; intros requests; simpl.
  - now rewrite app_nil_r.
  - rewrite IH. unfold pushAdjusted, Spec.reanchorTextStyleOnly.
    destruct (updateTextStyle op) as [uts|]; simpl; [|reflexivity].
    now rewrite <- app_assoc.
Qed.

Lemma emitOccurrences_blocks occurrences cumulativeOffset requests :
  emitOccurrences tabId findText processedText originalFormattingRequests
    occurrences cumulativeOffset requests
  = requests ++
    concat (imap (fun i occurrence =>
                    Spec.blockOfTextStyles tabId findText processedText
                      originalFormattingRequests
                      (occurrence + cumulativeOffset
                       + Z.of_nat i * Spec.lengthDiff findText processedText)%Z)
              occurrences).
Proof.
  revert cumulativeOffset requests.
  induction occurrences as [|occurrence rest IH];
    intros cumulativeOffset requests; simpl.
  - now rewrite app_nil_r.
  - cbn [emitOccurrences imap concat].
    rewrite IH, pushAdjusted_fold, <- !app_assoc. f_equal.
    replace (occurrence + cumulativeOffset
             + Z.of_nat 0 * Spec.lengthDiff findText processedText)%Z
      with (occurrence + cumulativeOffset)%Z by lia.
    cbn [app]. do 4 f_equal.
    apply imap_ext. intros i occ _. cbn [compose]. f_equal.
    unfold Spec.lengthDiff. lia.
Qed.

(** The planner returns when [findText] is not empty, and its result
    is the plan of the text-style blocks. *)
Lemma planner_plan fuel content :
  findText <> EmptyString ->
  (String.length (_getFullDocumentText content) < fuel)%nat ->
  exists occurrences,
    scanOccurrences fuel (_getFullDocumentText content) findText 0 []
      = Some occurrences /\
    _generateReplacementRequests tabId findText processedText
      originalFormattingRequests fuel content
      = Some (Spec.plan findText processedText
                (Spec.blockOfTextStyles tabId findText processedText
                   originalFormattingRequests)
                occurrences).
Proof.
  intros Hne Hfuel.
  destruct (scanOccurrences_terminates fuel (_getFullDocumentText content)
              findText 0 [] Hne) as [occurrences Hscan]; [lia|lia|].
  exists occurrences. split; [assumption|].
  unfold _generateReplacementRequests. rewrite Hscan.
  rewrite emitOccurrences_blocks. simpl. unfold Spec.plan. do 2 f_equal.
  apply imap_ext. intros i occ _. simpl. f_equal. lia.
Qed.

(** Without an occurrence the planner returns no request. *)
Lemma planner_no_occurrence fuel content :
  JS.indexOf (_getFullDocumentText content) findText 0 = (-1)%Z ->
  (0 < fuel)%nat ->
  _generateReplacementRequests tabId findText processedText
    originalFormattingRequests fuel content = Some [].
Proof.
  intros Hnone Hfuel. unfold _generateReplacementRequests.
  destruct fuel as [|fuel]; [lia|]. simpl. rewrite Hnone. reflexivity.
Qed.
End Emit.
End PlannerFacts.

Section PlannerClaims.
Import DocsService markdownToDocsRequests docs_v1.

(** C2 (the code departs from the claim): with an empty [findText] the
    planner does not return, whatever the document text and however many
    times the loop condition may be evaluated.  [indexOf] of the empty
    string at 0 answers 0, not -1, so each round records occurrence 1 and
    leaves the search position at 0. *)
Theorem planner_empty_findText_never_returns
    (tabId : option string) (processedText : string)
    (originalFormattingRequests : list Request)
    (content : option (list StructuralElement)) (fuel : nat) :
  JS.indexOf (_getFullDocumentText content) EmptyString 0 = 0%Z /\
  (forall occurrences,
      scanOccurrences (S fuel) (_getFullDocumentText content) EmptyString 0
        occurrences
      = scanOccurrences fuel (_getFullDocumentText content) EmptyString 0
          (occurrences ++ [1%Z])) /\
  _generateReplacementRequests tabId EmptyString processedText
    originalFormattingRequests fuel content = None.
Proof.
  assert (Hzero : JS.indexOf (_getFullDocumentText content) EmptyString 0 = 0%Z)
    by (rewrite indexOf_empty; lia).
  split; [exact Hzero|]. split.
  - intros occurrences. cbn [scanOccurrences]. rewrite Hzero. reflexivity.
  - unfold _generateReplacementRequests. now rewrite scanOccurrences_empty.
Qed.

(** What the planner emits: for a [findText] that is not empty it returns,
    and for every occurrence, in order, it emits the delete of
    [adjustedPosition, adjustedPosition + len(findText)), the insert of
    the processed replacement at [adjustedPosition], and then every
    [updateTextStyle] operation of the compiled replacement, re-anchored by
    [adjustedPosition] at both ends.  A style operation without
    [updateTextStyle] gives nothing. *)
Lemma planner_emits_text_style_blocks
    (tabId : option string) (findText processedText : string)
    (originalFormattingRequests : list Request)
    (content : option (list StructuralElement)) (fuel : nat) :
  findText <> EmptyString ->
  (String.length (_getFullDocumentText content) < fuel)%nat ->
  exists occurrences,
    scanOccurrences fuel (_getFullDocumentText content) findText 0 []
      = Some occurrences /\
    _generateReplacementRequests tabId findText processedText
      originalFormattingRequests fuel content
      = Some (Spec.plan findText processedText
                (Spec.blockOfTextStyles tabId findText processedText
                   originalFormattingRequests)
                occurrences) /\
    (forall adjustedPosition op,
        updateTextStyle op = None ->
        Spec.reanchorTextStyleOnly tabId adjustedPosition op = None).
Proof.
  intros Hne Hfuel.
  destruct (planner_plan tabId findText processedText originalFormattingRequests
              fuel content Hne Hfuel) as (occurrences & Hscan & Hplan).
  exists occurrences. repeat split; [assumption|assumption|].
  intros adjustedPosition op Hop. unfold Spec.reanchorTextStyleOnly.
  now rewrite Hop.
Qed.

(** C3 (the code departs from the claim): the replacement "# T" compiles
    to one heading operation, [updateParagraphStyle] over [0, 1); for the
    one occurrence of "x" the planner emits the delete of [1, 2) and the
    insert of "T" at 1 and nothing else, while the plan of the claim
    (delete, insert, then every style operation re-anchored) has the
    heading operation over [1, 2) as its third request.  [insertText]
    submits the heading operation of the same markdown. *)
Theorem heading_style_not_reanchored :
  formattingRequests (parseMarkdownToDocsRequests marked.textOnly "# T" 0)
  = [ {| deleteContentRange := None; insertText := None;
         updateTextStyle := None;
         updateParagraphStyle :=
           Some {| namedStyleType := "HEADING_1";
                   ups_range :=
                     Some {| range_segmentId := None; startIndex := Some 0%Z;
                             endIndex := Some 1%Z; range_tabId := None |};
                   ups_fields := "namedStyleType" |} |} ] /\
  _generateReplacementRequests None "x"
    (processMarkdownLineBreaks
       (plainText (parseMarkdownToDocsRequests marked.textOnly "# T" 0)))
    (formattingRequests (parseMarkdownToDocsRequests marked.textOnly "# T" 0))
    2 (Some [paragraph [Some "x"]])
  = Some [ Spec.deleteOp None "x" 1; Spec.insertOp None "T" 1 ] /\
  Spec.plan "x" "T"
    (Spec.blockOfEveryStyle None "x" "T"
       (formattingRequests (parseMarkdownToDocsRequests marked.textOnly "# T" 0)))
    [1%Z]
  = [ Spec.deleteOp None "x" 1; Spec.insertOp None "T" 1;
      {| deleteContentRange := None; insertText := None;
         updateTextStyle := None;
         updateParagraphStyle :=
           Some {| namedStyleType := "HEADING_1";
                   ups_range :=
                     Some {| range_segmentId := None; startIndex := Some 1%Z;
                             endIndex := Some 2%Z; range_tabId := None |};
                   ups_fields := "namedStyleType" |} |} ] /\
  _generateReplacementRequests None "x"
    (processMarkdownLineBreaks
       (plainText (parseMarkdownToDocsRequests marked.textOnly "# T" 0)))
    (formattingRequests (parseMarkdownToDocsRequests marked.textOnly "# T" 0))
    2 (Some [paragraph [Some "x"]])
  <> Some (Spec.plan "x" "T"
             (Spec.blockOfEveryStyle None "x" "T"
                (formattingRequests
                   (parseMarkdownToDocsRequests marked.textOnly "# T" 0)))
             [1%Z]) /\
  DocsService.insertText_requests marked.textOnly "# T" None
  = [ Spec.insertOp None "T" 1;
      {| deleteContentRange := None; insertText := None;
         updateTextStyle := None;
         updateParagraphStyle :=
           Some {| namedStyleType := "HEADING_1";
                   ups_range :=
                     Some {| range_segmentId := None; startIndex := Some 1%Z;
                             endIndex := Some 2%Z; range_tabId := None |};
                   ups_fields := "namedStyleType" |} |} ].
Proof.
  repeat split; try (vm_compute; reflexivity).
  vm_compute. discriminate.
Qed.

(** C4: in "Hello world! Hello again!" the occurrences of "Hello" are at
    the 1-based indices 1 and 14; with the replacement "Hi" the length
    difference is -3; the first occurrence gives the delete of [1, 6) and
    the insert at 1, the second is handled at 14 + (-3) = 11.  In general
    occurrence [i] is handled at [occurrence + i * lengthDiff]. *)
Theorem replace_hello_offsets
    (tabId : option string) (originalFormattingRequests : list Request)
    (fuel : nat) :
  (25 < fuel)%nat ->
  scanOccurrences fuel "Hello world! Hello again!" "Hello" 0 []
    = Some [1%Z; 14%Z] /\
  Spec.lengthDiff "Hello" "Hi" = (-3)%Z /\
  _generateReplacementRequests tabId "Hello" "Hi" originalFormattingRequests fuel
    (Some [paragraph [Some "Hello world! Hello again!"]])
  = Some
      ([ {| deleteContentRange :=
              Some {| dcr_range :=
                        Some {| range_segmentId := None; startIndex := Some 1%Z;
                                endIndex := Some 6%Z; range_tabId := tabId |} |};
            insertText := None; updateTextStyle := None;
            updateParagraphStyle := None |};
         {| deleteContentRange := None;
            insertText :=
              Some {| location :=
                        Some {| index := Some 1%Z; location_segmentId := None;
                                location_tabId := tabId |};
                      text := "Hi" |};
            updateTextStyle := None; updateParagraphStyle := None |} ]
       ++ omap (Spec.reanchorTextStyleOnly tabId 1) originalFormattingRequests
       ++ [ {| deleteContentRange :=
                 Some {| dcr_range :=
                           Some {| range_segmentId := None; startIndex := Some 11%Z;
                                   endIndex := Some 16%Z; range_tabId := tabId |} |};
               insertText := None; updateTextStyle := None;
               updateParagraphStyle := None |};
            {| deleteContentRange := None;
               insertText :=
                 Some {| location :=
                           Some {| index := Some 11%Z; location_segmentId := None;
                                   location_tabId := tabId |};
                         text := "Hi" |};
               updateTextStyle := None; updateParagraphStyle := None |} ]
       ++ omap (Spec.reanchorTextStyleOnly tabId 11) originalFormattingRequests) /\
  (forall findText processedText content fuel',
      findText <> EmptyString ->
      (String.length (_getFullDocumentText content) < fuel')%nat ->
      exists occurrences,
        scanOccurrences fuel' (_getFullDocumentText content) findText 0 []
          = Some occurrences /\
        _generateReplacementRequests tabId findText processedText
          originalFormattingRequests fuel' content
        = Some (concat
                  (imap (fun i occurrence =>
                           Spec.blockOfTextStyles tabId findText processedText
                             originalFormattingRequests
                             (occurrence
                              + Z.of_nat i
                                * (Z.of_nat (String.length processedText)
                                   - Z.of_nat (String.length findText)))%Z)
                     occurrences))).
Proof.
  intros Hfuel.
  assert (Hscan : scanOccurrences fuel "Hello world! Hello again!" "Hello" 0 []
                  = Some [1%Z; 14%Z]).
  { apply (scanOccurrences_more_fuel 26); [vm_compute; reflexivity|lia]. }
  split; [exact Hscan|]. split; [reflexivity|]. split.
  - unfold _generateReplacementRequests.
    change (_getFullDocumentText (Some [paragraph [Some "Hello world! Hello again!"]]))
      with "Hello world! Hello again!".
    rewrite Hscan, emitOccurrences_blocks. cbn [imap concat].
    rewrite app_nil_r. reflexivity.
  - intros findText processedText content fuel' Hne Hlen.
    exact (planner_plan tabId findText processedText originalFormattingRequests
             fuel' content Hne Hlen).
Qed.

Lemma replace_hello_offsets_witness :
  (25 < 26)%nat /\
  scanOccurrences 26 "Hello world! Hello again!" "Hello" 0 []
    = Some [1%Z; 14%Z] /\
  Spec.lengthDiff "Hello" "Hi" = (-3)%Z.
Proof.
  split; [lia|].
  destruct (replace_hello_offsets None [] 26 ltac:(lia)) as (H1 & H2 & _).
  split; assumption.
Defined.

Section ReplaceTextClaims.
Variable getAuthenticatedClient : string + unit.
Variable get : string -> string + list Tab.
Variable batchUpdate : string -> list Request -> string + string.
Variable extractDocId : string -> option string.
Variable inlineTokens : string -> list marked.Token.

Lemma forEachTab_no_occurrence fuel findText processedText fmt tabs requests log :
  (0 < fuel)%nat ->
  Forall (Spec.noOccurrence findText) tabs ->
  forEachTab fuel findText processedText fmt tabs requests log
  = (Api.Returned requests, log).
Proof.
  intros Hfuel Hall. revert requests.
  induction Hall as [|tab tabs Htab _ IH]; intros requests; [reflexivity|].
  cbn [forEachTab]. unfold mbind, Api_bind, Api.bind, Api.terminating.
  rewrite planner_no_occurrence by assumption.
  rewrite app_nil_r. apply IH.
Qed.

(** C5: when [findText] does not occur in the text of the tab that is
    searched (of every tab, without a [tabId]), [replaceText] collects no
    request, makes no [batchUpdate] call (the one remote call is
    [documents.get]) and returns the success message. *)
Theorem replaceText_without_occurrence_is_noop
    (fuel : nat) (documentId findText replaceText : string)
    (tabId : option string) (tabs : list Tab) :
  getAuthenticatedClient = inr tt ->
  get (docIdOf extractDocId documentId) = inr tabs ->
  match truthyTabId tabId with
  | Some t => exists tab, findTab tabs t = Some tab /\ Spec.noOccurrence findText tab
  | None => Forall (Spec.noOccurrence findText) tabs
  end ->
  (0 < fuel)%nat ->
  Api.run
    (collectRequests fuel findText
       (processMarkdownLineBreaks
          (plainText (parseMarkdownToDocsRequests inlineTokens replaceText 0)))
       (formattingRequests (parseMarkdownToDocsRequests inlineTokens replaceText 0))
       tabs tabId)
  = (Api.Returned [], []) /\
  Api.run
    (DocsService.replaceText getAuthenticatedClient get batchUpdate extractDocId
       inlineTokens fuel documentId findText replaceText tabId)
  = (Api.Returned
       (Api.Message
          ("Successfully replaced text in document "
           +:+ docIdOf extractDocId documentId)),
     [documents_get (docIdOf extractDocId documentId)]).
Proof.
  intros Hauth Hget Htabs Hfuel.
  assert (Hcollect : forall log,
    collectRequests fuel findText
      (processMarkdownLineBreaks
         (plainText (parseMarkdownToDocsRequests inlineTokens replaceText 0)))
      (formattingRequests (parseMarkdownToDocsRequests inlineTokens replaceText 0))
      tabs tabId log = (Api.Returned [], log)).
  { intros log. unfold collectRequests.
    destruct (truthyTabId tabId) as [t|].
    - destruct Htabs as (tab & -> & Hnone). unfold Api.terminating.
      now rewrite planner_no_occurrence.
    - now apply forEachTab_no_occurrence. }
  split; [apply Hcollect|].
  unfold Api.run, DocsService.replaceText, replaceText_try, Api.tryCatch,
    getDocsClient.
  rewrite Hauth. unfold mbind, Api_bind, Api.bind, mret, Api_ret, Api.ret, Api.await.
  rewrite Hget, Hcollect. reflexivity.
Qed.

End ReplaceTextClaims.

Lemma replaceText_without_occurrence_is_noop_witness :
  Api.run
    (DocsService.replaceText (inr tt)
       (fun _ => inr [ {| tabProperties_tabId := None;
                          documentTab_body_content :=
                            Some [paragraph [Some "Hello world!"]] |} ])
       (fun _ _ => inr EmptyString) (fun _ => None) marked.textOnly
       1 "test-doc-id" "Bye" "Hi" None)
  = (Api.Returned
       (Api.Message "Successfully replaced text in document test-doc-id"),
     [documents_get "test-doc-id"]).
Proof.
  apply (replaceText_without_occurrence_is_noop (inr tt)
           (fun _ => inr [ {| tabProperties_tabId := None;
                              documentTab_body_content :=
                                Some [paragraph [Some "Hello world!"]] |} ])
           (fun _ _ => inr EmptyString) (fun _ => None) marked.textOnly
           1 "test-doc-id" "Bye" "Hi" None _ eq_refl eq_refl).
  - repeat constructor.
  - lia.
Defined.

End PlannerClaims.

(** ** Tab identifiers on formatting requests *)

Section TabIds.
Import DocsService docs_v1.

Lemma addTabId_frame t req :
  Spec.eraseTabIds (addTabId t req) = Spec.eraseTabIds req /\
  Forall (eq (Some t)) (Spec.tabIdsOf (addTabId t req)).
Proof.
  destruct req as [dcr [[[l|] txt]|] [[[r|] ts f]|] [[n [r'|] f']|]];
    split; try reflexivity; cbv; repeat constructor.
Qed.

(** C10: without a [tabId] (undefined or the empty string)
    [_addTabIdToFormattingRequests] returns its input; with a [tabId] the
    result has one request per input request, equal to it in every field
    but the [tabId] of [updateTextStyle.range], [updateParagraphStyle.range]
    and [insertText.location], which hold the [tabId] where the range or
    location exists. *)
Theorem addTabIdToFormattingRequests_frame (requests : list Request) :
  _addTabIdToFormattingRequests requests None = requests /\
  _addTabIdToFormattingRequests requests (Some EmptyString) = requests /\
  forall (c : ascii) (t : string),
    Forall2
      (fun req newReq =>
         Spec.eraseTabIds newReq = Spec.eraseTabIds req /\
         Forall (eq (Some (String c t))) (Spec.tabIdsOf newReq))
      requests
      (_addTabIdToFormattingRequests requests (Some (String c t))).
Proof.
  split; [reflexivity|]. split; [reflexivity|].
  intros c t. unfold _addTabIdToFormattingRequests.
  change (truthyTabId (Some (String c t))) with (Some (String c t)).
  destruct requests as [|req requests]; [constructor|].
  cbn [length Nat.eqb].
  generalize (req :: requests). intros l.
  induction l as [|x l IH]; constructor; [apply addTabId_frame|exact IH].
Qed.

End TabIds.

(** ** Slides: replaceAllText *)

Section SlidesClaims.
Import SlidesService.

(** C8: with an empty replacements map [replaceAllText] makes no
    [batchUpdate] call, whatever the remote side does; and once the Slides
    client is obtained it returns the message 'No replacements provided.',
    which is not the reply of a batch. *)
Theorem replaceAllText_without_replacements
    (batchUpdate : string -> list slides_v1.Request -> string + list string)
    (extractDocId : string -> option string) (presentationId : string) :
  (forall getAuthenticatedClient,
      snd (Api.run (replaceAllText getAuthenticatedClient batchUpdate extractDocId
                      presentationId [])) = []) /\
  Api.run (replaceAllText (inr tt) batchUpdate extractDocId presentationId [])
  = (Api.Returned (Api.Message "No replacements provided."), []) /\
  (forall replies, Api.Message "No replacements provided." <> Api.JsonReply replies).
Proof.
  split; [|split; [reflexivity|discriminate]].
  intros [message|[]]; reflexivity.
Qed.

End SlidesClaims.

(** ** Credential merge *)

Section MergeClaims.
Import AuthManager.

Lemma mergeCredentials_refresh_token previousCredential newCredentialFields :
  prop (mergeCredentials previousCredential newCredentialFields) "refresh_token"
  = if isDefined (prop newCredentialFields "refresh_token")
    then prop newCredentialFields "refresh_token"
    else prop previousCredential "refresh_token".
Proof.
  unfold mergeCredentials, spread, prop.
  destruct (newCredentialFields !! "refresh_token") as [v|] eqn:E; simpl.
  - destruct (isDefined v) eqn:Ev.
    + now rewrite (lookup_union_Some_l _ _ _ _ E).
    + now rewrite lookup_insert_eq.
  - now rewrite lookup_insert_eq.
Qed.

Lemma mergeCredentials_other previousCredential newCredentialFields key v :
  key <> "refresh_token" ->
  newCredentialFields !! key = Some v ->
  mergeCredentials previousCredential newCredentialFields !! key = Some v.
Proof.
  intros Hkey Hnew. unfold mergeCredentials, spread.
  destruct (isDefined _).
  - now apply lookup_union_Some_l.
  - rewrite lookup_insert_ne by congruence. now apply lookup_union_Some_l.
Qed.

(** C1: in a merged credential [refresh_token] is the new token set's when
    that is defined and the previous credential's otherwise; every other
    field that the new token set has takes its value.  The token-update
    listener, the manual [refreshToken] and the proactive refresh all keep
    and save exactly this merge. *)
Theorem merge_keeps_refresh_token
    (session : AuthSession) (newCredentialFields : gmap string Value)
    (endpoint : Value -> string + gmap string Value) (now margin : Z) :
  prop (mergeCredentials (credentials session) newCredentialFields) "refresh_token"
  = (if isDefined (prop newCredentialFields "refresh_token")
     then prop newCredentialFields "refresh_token"
     else prop (credentials session) "refresh_token") /\
  (forall key v,
      key <> "refresh_token" ->
      newCredentialFields !! key = Some v ->
      mergeCredentials (credentials session) newCredentialFields !! key = Some v) /\
  (credentials (mergeAndPersist session newCredentialFields)
   = mergeCredentials (credentials session) newCredentialFields /\
   saved (mergeAndPersist session newCredentialFields)
   = saved session ++ [mergeCredentials (credentials session) newCredentialFields]) /\
  onTokens session newCredentialFields = mergeAndPersist session newCredentialFields /\
  (isDefined (prop (credentials session) "refresh_token") = true ->
   endpoint (prop (credentials session) "refresh_token") = inr newCredentialFields ->
   refreshToken endpoint session
   = Refreshed (mergeAndPersist session newCredentialFields) /\
   (isExpired now margin (credentials session) = true ->
    getAuthenticatedClient endpoint now margin session
    = Refreshed (mergeAndPersist session newCredentialFields))).
Proof.
  split; [apply mergeCredentials_refresh_token|].
  split; [intros key v; apply mergeCredentials_other|].
  split; [split; reflexivity|].
  split; [reflexivity|].
  intros Hdefined Hendpoint.
  assert (Hrefresh : refreshToken endpoint session
                     = Refreshed (mergeAndPersist session newCredentialFields)).
  { unfold refreshToken.
    destruct (prop (credentials session) "refresh_token") as [|s|n];
      [discriminate| |]; now rewrite Hendpoint. }
  split; [exact Hrefresh|].
  intros Hexpired. unfold getAuthenticatedClient. now rewrite Hexpired.
Qed.

(** The token event of the test suite: the access token and the expiry are
    the new ones, the refresh token is the stored one. *)
Example tokens_event_merge :
  let merged :=
    mergeCredentials
      {[ "access_token" := str "old_token"; "refresh_token" := str "old_refresh";
         "scope" := str "scope1" ]}
      {[ "access_token" := str "new_token"; "expiry_date" := num 123456789 ]} in
  prop merged "access_token" = str "new_token" /\
  prop merged "refresh_token" = str "old_refresh" /\
  prop merged "expiry_date" = num 123456789.
Proof. vm_compute. repeat split. Qed.

(** The rule of the specification keeps the [scope] of the previous
    credential when the token event has none; the test of the token event
    expects the saved record without it. *)
Example tokens_event_keeps_scope :
  prop
    (mergeCredentials
       {[ "access_token" := str "old_token"; "refresh_token" := str "old_refresh";
          "scope" := str "scope1" ]}
       {[ "access_token" := str "new_token"; "expiry_date" := num 123456789 ]})
    "scope"
  = str "scope1".
Proof. vm_compute. reflexivity. Qed.

End MergeClaims.

(** ** The markdown compiler *)

Section CompilerFacts.
Import markdownToDocsRequests docs_v1.

(** The inner loop of [processToken] is [processTokens]. *)
Lemma processTokens_eq tokens acc :
  (fix processTokens (ts : list marked.Token) (acc : Acc) : Acc :=
     match ts with
     | [] => acc
     | t :: ts' => processTokens ts' (processToken t acc)
     end) tokens acc
  = processTokens tokens acc.
Proof.
  revert acc. induction tokens as [|t ts IH]; intros acc; [reflexivity|].
  simpl. apply IH.
Qed.

Section Invariant.
(** A property of ranges that every inline range has. *)
Variable P : FormatRange -> Prop.
Hypothesis P_inline : forall r, type r <> heading_ -> P r.

Lemma pushRange_inv r acc :
  P r -> Forall P (snd acc) -> Forall P (snd (pushRange r acc)).
Proof.
  intros Hr Hacc. unfold pushRange; simpl.
  apply Forall_app. split; [assumption|]. now constructor.
Qed.

Lemma processToken_inv :
  forall token acc, Forall P (snd acc) -> Forall P (snd (processToken token acc)).
Proof.
  fix IH 1. intros [ty text tokens href] acc Hacc.
  assert (Hloop : forall ts acc',
             Forall P (snd acc') ->
             Forall P (snd ((fix processTokens (ts : list marked.Token)
                                 (acc : Acc) : Acc :=
                               match ts with
                               | [] => acc
                               | t :: ts' => processTokens ts' (processToken t acc)
                               end) ts acc'))).
  { fix IHl 1. intros [|t ts] acc' Hacc'; [exact Hacc'|].
    apply IHl. apply IH. exact Hacc'. }
  assert (Hchildren :
            Forall P (snd (match tokens with
                           | Some ts =>
                               (fix processTokens (ts : list marked.Token)
                                    (acc : Acc) : Acc :=
                                  match ts with
                                  | [] => acc
                                  | t :: ts' =>
                                      processTokens ts' (processToken t acc)
                                  end) ts acc
                           | None => appendText text acc
                           end))).
  { destruct tokens as [ts|]; [now apply Hloop|exact Hacc]. }
  cbn [processToken].
  destruct ty; try exact Hchildren;
    try (apply pushRange_inv; [apply P_inline; discriminate|]; try exact Hchildren).
  - exact Hacc.
  - destruct tokens as [ts|]; [now apply Hloop|].
    destruct (JS.truthy text); exact Hacc.
Qed.

Lemma processTokens_inv tokens acc :
  Forall P (snd acc) -> Forall P (snd (processTokens tokens acc)).
Proof.
  revert acc. induction tokens as [|t ts IH]; intros acc Hacc; [exact Hacc|].
  simpl. apply IH. now apply processToken_inv.
Qed.
End Invariant.

(** Group 1 of the heading pattern holds between one and six hashes. *)
Lemma matchHashes_level more seen s level content :
  matchHashes more seen s = Some (level, content) ->
  (1 <= level /\ seen <= level <= seen + more)%nat.
Proof.
  revert seen s. induction more as [|more IH]; intros seen s.
  - simpl. destruct seen as [|seen]; [destruct s; discriminate|].
    assert (Hstop : option_map (pair (S seen)) (matchSpaces s) = Some (level, content)
                    -> (1 <= level /\ S seen <= level <= S seen + 0)%nat).
    { destruct (matchSpaces s); [|discriminate]. intros [= <- _]. lia. }
    destruct s; exact Hstop.
  - assert (Hstop : match seen with
                    | O => None
                    | S _ => option_map (pair seen) (matchSpaces s)
                    end = Some (level, content)
                    -> (1 <= level /\ seen <= level <= seen + S more)%nat).
    { destruct seen as [|seen]; [discriminate|].
      destruct (matchSpaces s); [|discriminate]. intros [= <- _]. lia. }
    cbn [matchHashes]. destruct s as [|c s]; [exact Hstop|].
    destruct (Ascii.eqb c "#"); [|exact Hstop].
    destruct (matchHashes more (S seen) s) as [[l ct]|] eqn:E; [|exact Hstop].
    intros [= -> ->]. apply IH in E. lia.
Qed.

Section Lines.
Variable inlineTokens : string -> list marked.Token.

Lemma compiledHeading_inline r : type r <> heading_ -> Spec.compiledHeading r.
Proof. intros Hr Hh. contradiction. Qed.

Lemma processLine_headings line acc :
  Forall Spec.compiledHeading (snd acc) ->
  Forall Spec.compiledHeading (snd (processLine inlineTokens line acc)).
Proof.
  intros Hacc. unfold processLine.
  destruct (headingMatch line) as [[level content]|] eqn:E.
  - apply pushRange_inv.
    + intros _. split; [reflexivity|]. exists level. split; [reflexivity|].
      apply matchHashes_level in E. lia.
    + apply processTokens_inv; [exact compiledHeading_inline|exact Hacc].
  - destruct (JS.truthy _); [|exact Hacc].
    apply processTokens_inv; [exact compiledHeading_inline|exact Hacc].
Qed.

Lemma processLines_headings lines acc :
  Forall Spec.compiledHeading (snd acc) ->
  Forall Spec.compiledHeading (snd (processLines inlineTokens lines acc)).
Proof.
  revert acc. induction lines as [|line rest IH]; intros acc Hacc; [exact Hacc|].
  cbn [processLines]. apply IH.
  destruct rest; [|unfold appendText; cbn [snd]];
    now apply processLine_headings.
Qed.
End Lines.

(** Each round of the lowering loop appends what it makes of its range. *)
Lemma lowerRange_app startIndex requests range :
  lowerRange startIndex requests range
  = requests ++ lowerRange startIndex [] range.
Proof.
  unfold lowerRange, pushTextStyle.
  destruct (type range); try reflexivity; cbn [length Nat.ltb Nat.leb];
    rewrite ?app_nil_r; try reflexivity.
  - destruct (url range) as [u|]; [destruct (JS.truthy u)|];
      cbn [length Nat.ltb Nat.leb]; rewrite ?app_nil_r; reflexivity.
  - destruct (_ && _); cbn [length Nat.ltb Nat.leb]; rewrite ?app_nil_r;
      reflexivity.
Qed.

Lemma lowerRanges_flat_map startIndex ranges :
  lowerRanges startIndex ranges
  = flat_map (fun range => lowerRange startIndex [] range) ranges.
Proof.
  unfold lowerRanges.
  assert (H : forall requests,
             fold_left (lowerRange startIndex) ranges requests
             = requests ++ flat_map (fun range => lowerRange startIndex [] range) ranges).
  { induction ranges as [|r rs IH]; intros requests; simpl.
    - now rewrite app_nil_r.
    - rewrite IH, lowerRange_app, <- app_assoc. reflexivity. }
  apply H.
Qed.

(** An inline range makes no [updateParagraphStyle]. *)
Lemma lowerRange_inline startIndex range req :
  type range <> heading_ ->
  In req (lowerRange startIndex [] range) ->
  updateParagraphStyle req = None /\ updateTextStyle req <> None.
Proof.
  intros Hty. unfold lowerRange, pushTextStyle.
  destruct (type range); try contradiction; cbn;
    try (intros [<-|[]]; split; [reflexivity|discriminate]).
  destruct (url range) as [u|]; [destruct (JS.truthy u)|]; cbn;
    try (intros [<-|[]]; split; [reflexivity|discriminate]); intros [].
Qed.

Lemma trimEnd_cons_not_space c s :
  JS.isWhiteSpace c = false -> JS.trimEnd (String c s) <> EmptyString.
Proof.
  intros Hc. cbn [JS.trimEnd]. destruct (JS.trimEnd s); [|discriminate].
  rewrite Hc. discriminate.
Qed.

Lemma seven_hashes_line inlineTokens rest acc :
  processLine inlineTokens (Spec.repeatThen "#" 7 rest) acc
  = processTokens (inlineTokens (Spec.repeatThen "#" 7 rest)) acc.
Proof.
  unfold processLine.
  change (headingMatch (Spec.repeatThen "#" 7 rest)) with (@None (nat * string)).
  cbv iota.
  assert (Htrim : JS.truthy (JS.trim (Spec.repeatThen "#" 7 rest)) = true).
  { unfold JS.truthy, JS.trim.
    change (JS.trimStart (Spec.repeatThen "#" 7 rest))
      with (String "#" (Spec.repeatThen "#" 6 rest)).
    pose proof (trimEnd_cons_not_space "#" (Spec.repeatThen "#" 6 rest) eq_refl) as H.
    destruct (JS.trimEnd _); [congruence|reflexivity]. }
  now rewrite Htrim.
Qed.

(** A heading range of a level from 1 to 6 gives one
    [updateParagraphStyle] with the style named after its level. *)
Lemma lowerRange_heading startIndex range level :
  type range = heading_ -> headingLevel range = Some level ->
  isParagraph range = Some true -> (1 <= level <= 6)%nat ->
  headingStyles level = Some (Spec.headingStyleName level) /\
  lowerRange startIndex [] range
  = [ {| deleteContentRange := None; insertText := None;
         updateTextStyle := None;
         updateParagraphStyle :=
           Some {| namedStyleType := Spec.headingStyleName level;
                   ups_range := Some (shiftedRange startIndex range);
                   ups_fields := "namedStyleType" |} |} ].
Proof.
  intros Hty Hlevel Hpar Hbounds.
  assert (Hname : headingStyles level = Some (Spec.headingStyleName level)).
  { destruct level as [|[|[|[|[|[|[|]]]]]]]; try reflexivity; lia. }
  split; [exact Hname|].
  unfold lowerRange. rewrite Hty, Hlevel, Hpar.
  destruct level as [|level]; [lia|]. cbn [isTruthyLevel isTrue andb].
  change (default 0%nat (Some (S level))) with (S level).
  now rewrite Hname.
Qed.

(** C6: the formatting requests are what the ranges give, range by range
    in order; every heading range of the compiler has a level from 1 to 6
    and gives exactly one request, an [updateParagraphStyle] over
    [startIndex + start, startIndex + end) whose named style is
    [HEADING_] followed by that level, and no [updateTextStyle]; and the
    level is the number of hashes that the heading pattern captures: a
    heading line as the whole markdown gives, after the requests of its
    inline ranges (none of them an [updateParagraphStyle]), the one
    [updateParagraphStyle] named after that number over the whole plain
    text. *)
Theorem heading_range_gives_one_paragraph_style
    (inlineTokens : string -> list marked.Token) (markdown : string)
    (startIndex : Z) :
  formattingRequests (parseMarkdownToDocsRequests inlineTokens markdown startIndex)
  = flat_map (fun range => lowerRange startIndex [] range)
      (snd (compileRanges inlineTokens markdown)) /\
  (forall range,
      In range (snd (compileRanges inlineTokens markdown)) ->
      type range = heading_ ->
      exists level,
        headingLevel range = Some level /\ (1 <= level <= 6)%nat /\
        headingStyles level = Some (Spec.headingStyleName level) /\
        lowerRange startIndex [] range
        = [ {| deleteContentRange := None; insertText := None;
               updateTextStyle := None;
               updateParagraphStyle :=
                 Some {| namedStyleType := Spec.headingStyleName level;
                         ups_range :=
                           Some {| range_segmentId := None;
                                   startIndex :=
                                     Some (startIndex + Z.of_nat (start range))%Z;
                                   endIndex :=
                                     Some (startIndex + Z.of_nat (end_ range))%Z;
                                   range_tabId := None |};
                         ups_fields := "namedStyleType" |} |} ]) /\
  (forall line level content,
      JS.split_LF line = [line] ->
      headingMatch line = Some (level, content) ->
      exists inline,
        formattingRequests (parseMarkdownToDocsRequests inlineTokens line startIndex)
        = inline ++
          [ {| deleteContentRange := None; insertText := None;
               updateTextStyle := None;
               updateParagraphStyle :=
                 Some {| namedStyleType := Spec.headingStyleName level;
                         ups_range :=
                           Some {| range_segmentId := None;
                                   startIndex := Some startIndex;
                                   endIndex :=
                                     Some (startIndex
                                           + Z.of_nat
                                               (String.length
                                                  (plainText
                                                     (parseMarkdownToDocsRequests
                                                        inlineTokens line
                                                        startIndex))))%Z;
                                   range_tabId := None |};
                         ups_fields := "namedStyleType" |} |} ] /\
        Forall (fun req => updateParagraphStyle req = None) inline) /\
  Spec.headingStyleName 1 = "HEADING_1" /\ Spec.headingStyleName 2 = "HEADING_2" /\
  Spec.headingStyleName 3 = "HEADING_3" /\ Spec.headingStyleName 4 = "HEADING_4" /\
  Spec.headingStyleName 5 = "HEADING_5" /\ Spec.headingStyleName 6 = "HEADING_6".
Proof.
  split; [apply lowerRanges_flat_map|]. split; [|split; [|repeat split]].
  - intros range Hin Hty.
    assert (Hall : Forall Spec.compiledHeading
                     (snd (compileRanges inlineTokens markdown)))
      by (apply processLines_headings; constructor).
    rewrite Forall_forall in Hall. apply list_elem_of_In in Hin.
    destruct (Hall range Hin Hty) as (Hpar & level & Hlevel & Hrange).
    exists level.
    destruct (lowerRange_heading startIndex range level Hty Hlevel Hpar Hrange)
      as [Hname Hlower].
    repeat split; try assumption; lia.
  - intros line level content Hsplit Hmatch.
    unfold parseMarkdownToDocsRequests, compileRanges.
    cbn [formattingRequests plainText]. rewrite Hsplit. cbn [processLines].
    unfold processLine. rewrite Hmatch. cbv zeta. unfold pushRange. cbn [fst snd].
    set (inlineAcc := processTokens (inlineTokens content) (EmptyString, [])).
    exists (flat_map (fun range => lowerRange startIndex [] range) (snd inlineAcc)).
    split.
    + rewrite lowerRanges_flat_map, flat_map_app. f_equal.
      cbn [flat_map]. rewrite app_nil_r.
      pose proof (matchHashes_level 6 0 line level content Hmatch) as Hbounds.
      match goal with
      | |- context [lowerRange startIndex [] ?r] =>
          rewrite (proj2 (lowerRange_heading startIndex r level eq_refl eq_refl
                            eq_refl ltac:(lia)))
      end.
      unfold shiftedRange. cbn [start end_ String.length Z.of_nat].
      now rewrite Z.add_0_r.
    + rewrite Forall_forall. intros req Hin. apply list_elem_of_In in Hin.
      apply in_flat_map in Hin. destruct Hin as (range & Hin & Hreq).
      assert (Hall : Forall (fun r => type r <> heading_) (snd inlineAcc))
        by (apply processTokens_inv; [auto|constructor]).
      rewrite Forall_forall in Hall. apply list_elem_of_In in Hin.
      exact (proj1 (lowerRange_inline startIndex range req (Hall range Hin) Hreq)).
Qed.

(** C7: a line that begins with seven hashes does not match the heading
    pattern and is processed as inline content; the markdown
    "####### too many hashes", and any one-line markdown that begins with
    seven hashes, gives no [updateParagraphStyle] request. *)
Theorem seven_hashes_is_not_a_heading
    (inlineTokens : string -> list marked.Token) (startIndex : Z) :
  (forall rest, headingMatch (Spec.repeatThen "#" 7 rest) = None) /\
  (forall rest acc,
      processLine inlineTokens (Spec.repeatThen "#" 7 rest) acc
      = processTokens (inlineTokens (Spec.repeatThen "#" 7 rest)) acc) /\
  (forall rest req,
      JS.split_LF (Spec.repeatThen "#" 7 rest) = [Spec.repeatThen "#" 7 rest] ->
      In req (formattingRequests
                (parseMarkdownToDocsRequests inlineTokens
                   (Spec.repeatThen "#" 7 rest) startIndex)) ->
      updateParagraphStyle req = None) /\
  (forall req,
      In req (formattingRequests
                (parseMarkdownToDocsRequests inlineTokens
                   "####### too many hashes" startIndex)) ->
      updateParagraphStyle req = None).
Proof.
  assert (Hone : forall rest req,
      JS.split_LF (Spec.repeatThen "#" 7 rest) = [Spec.repeatThen "#" 7 rest] ->
      In req (formattingRequests
                (parseMarkdownToDocsRequests inlineTokens
                   (Spec.repeatThen "#" 7 rest) startIndex)) ->
      updateParagraphStyle req = None).
  { intros rest req Hsplit.
    unfold parseMarkdownToDocsRequests, compileRanges. cbn [formattingRequests].
    rewrite Hsplit. cbn [processLines]. rewrite seven_hashes_line.
    rewrite lowerRanges_flat_map, in_flat_map. intros (range & Hin & Hreq).
    assert (Hall : Forall (fun r => type r <> heading_)
                     (snd (processTokens (inlineTokens (Spec.repeatThen "#" 7 rest))
                             (EmptyString, []))))
      by (apply processTokens_inv; [auto|constructor]).
    rewrite Forall_forall in Hall. apply list_elem_of_In in Hin.
    exact (proj1 (lowerRange_inline startIndex range req (Hall range Hin) Hreq)). }
  split; [reflexivity|]. split; [apply seven_hashes_line|]. split; [exact Hone|].
  intros req. apply (Hone " too many hashes"). reflexivity.
Qed.

(** "**a**", three newlines, "**b**" compiles to two bold ranges on the
    five code units of [plainText], while the inserted text has four: the
    second range, [5, 6), lies past the inserted "b" at [4, 5). *)
Example insertText_ranges_past_collapsed_text :
  DocsService.insertText_requests marked.exampleTokens
    (String "*" (String "*" (String "a" (String "*" (String "*"
       (Spec.repeatThen JS.LF 3 "**b**"))))))
    None
  = [ Spec.insertOp None (String "a" (Spec.repeatThen JS.LF 2 "b")) 1;
      {| deleteContentRange := None; insertText := None;
         updateTextStyle :=
           Some {| uts_range :=
                     Some {| range_segmentId := None; startIndex := Some 1%Z;
                             endIndex := Some 2%Z; range_tabId := None |};
                   textStyle :=
                     {| bold := Some true; italic := None;
                        weightedFontFamily := None; backgroundColor := None;
                        link := None; foregroundColor := None;
                        underline := None |};
                   uts_fields := "bold" |};
         updateParagraphStyle := None |};
      {| deleteContentRange := None; insertText := None;
         updateTextStyle :=
           Some {| uts_range :=
                     Some {| range_segmentId := None; startIndex := Some 5%Z;
                             endIndex := Some 6%Z; range_tabId := None |};
                   textStyle :=
                     {| bold := Some true; italic := None;
                        weightedFontFamily := None; backgroundColor := None;
                        link := None; foregroundColor := None;
                        underline := None |};
                   uts_fields := "bold" |};
         updateParagraphStyle := None |} ].
Proof. vm_compute. reflexivity. Qed.

(** The end-to-end example of the compiler: "Hello **world**" at offset 1
    is "Hello world" with one bold [updateTextStyle] over [7, 12). *)
Example hello_world_bold :
  parseMarkdownToDocsRequests marked.exampleTokens "Hello **world**" 1
  = {| plainText := "Hello world";
       formattingRequests :=
         [ {| deleteContentRange := None; insertText := None;
              updateTextStyle :=
                Some {| uts_range :=
                          Some {| range_segmentId := None; startIndex := Some 7%Z;
                                  endIndex := Some 12%Z; range_tabId := None |};
                        textStyle :=
                          {| bold := Some true; italic := None;
                             weightedFontFamily := None; backgroundColor := None;
                             link := None; foregroundColor := None;
                             underline := None |};
                        uts_fields := "bold" |};
              updateParagraphStyle := None |} ] |}.
Proof. vm_compute. reflexivity. Qed.

(** The test "should replace text with markdown formatting": "this text"
    occurs at 9 and 23, and each occurrence gets the delete of nine code
    units, the insert of "bold text" and the bold range over it. *)
Example replace_with_bold_text :
  Api.run
    (DocsService.collectRequests 40 "this text" "bold text"
       (formattingRequests
          (parseMarkdownToDocsRequests marked.exampleTokens "**bold text**" 0))
       [ {| tabProperties_tabId := None;
            documentTab_body_content :=
              Some [paragraph [Some "Replace this text and this text too."]] |} ]
       None)
  = (Api.Returned
       (let boldOver (first last : Z) :=
          {| deleteContentRange := None; insertText := None;
             updateTextStyle :=
               Some {| uts_range :=
                         Some {| range_segmentId := None; startIndex := Some first;
                                 endIndex := Some last; range_tabId := None |};
                       textStyle :=
                         {| bold := Some true; italic := None;
                            weightedFontFamily := None; backgroundColor := None;
                            link := None; foregroundColor := None;
                            underline := None |};
                       uts_fields := "bold" |};
             updateParagraphStyle := None |} in
        [ Spec.deleteOp None "this text" 9; Spec.insertOp None "bold text" 9;
          boldOver 9%Z 18%Z;
          Spec.deleteOp None "this text" 23; Spec.insertOp None "bold text" 23;
          boldOver 23%Z 32%Z ]),
     []).
Proof. vm_compute. reflexivity. Qed.

End CompilerFacts.

(** * Further properties *)

(** ** The compiler: ranges and offsets *)

Section CompilerBounds.
Import markdownToDocsRequests docs_v1.

Lemma string_length_app (a b : string) :
  String.length (a +:+ b) = (String.length a + String.length b)%nat.
Proof.
  induction a as [|c a IH]; [reflexivity|].
  change (String c a +:+ b) with (String c (a +:+ b)).
  cbn [String.length]. now rewrite IH.
Qed.

Lemma rangesWithin_mono n m ranges :
  (n <= m)%nat -> Props.rangesWithin n ranges -> Props.rangesWithin m ranges.
Proof.
  intros Hnm H. unfold Props.rangesWithin in *.
  eapply Forall_impl; [exact H|]. intros r Hr. cbn beta in *. lia.
Qed.

Lemma grows_refl acc : Props.grows acc acc.
Proof. split; [lia|auto]. Qed.

Lemma grows_trans a b c : Props.grows a b -> Props.grows b c -> Props.grows a c.
Proof. intros [H1 H2] [H3 H4]. split; [lia|auto]. Qed.

Lemma grows_appendText s acc : Props.grows acc (appendText s acc).
Proof.
  unfold Props.grows, appendText; cbn [fst snd]. rewrite string_length_app.
  split; [lia|]. apply rangesWithin_mono. lia.
Qed.

Lemma grows_pushRange r acc acc' :
  Props.grows acc acc' ->
  (start r <= end_ r)%nat -> end_ r = String.length (fst acc') ->
  Props.grows acc (pushRange r acc').
Proof.
  intros [Hlen Hr] Hse He. unfold Props.grows, pushRange; cbn [fst snd].
  split; [lia|]. intros H. apply Forall_app. split; [now apply Hr|].
  constructor; [lia|constructor].
Qed.

Lemma processToken_grows :
  forall token acc, Props.grows acc (processToken token acc).
Proof.
  fix IH 1. intros [ty text tokens href] acc.
  assert (Hloop : forall ts acc',
             Props.grows acc'
               ((fix processTokens (ts : list marked.Token) (acc : Acc) : Acc :=
                   match ts with
                   | [] => acc
                   | t :: ts' => processTokens ts' (processToken t acc)
                   end) ts acc')).
  { fix IHl 1. intros [|t ts] acc'; [apply grows_refl|].
    eapply grows_trans; [apply IH|apply IHl]. }
  assert (Hchildren :
            Props.grows acc
              (match tokens with
               | Some ts =>
                   (fix processTokens (ts : list marked.Token) (acc : Acc) : Acc :=
                      match ts with
                      | [] => acc
                      | t :: ts' => processTokens ts' (processToken t acc)
                      end) ts acc
               | None => appendText text acc
               end)).
  { destruct tokens as [ts|]; [apply Hloop|apply grows_appendText]. }
  cbn [processToken].
  destruct ty; try exact Hchildren;
    try (apply grows_pushRange; cbn [start end_ inlineRange];
         [exact Hchildren|apply Hchildren|reflexivity]).
  - apply grows_pushRange; cbn [start end_ inlineRange];
      [apply grows_appendText|apply grows_appendText|reflexivity].
  - destruct tokens as [ts|]; [apply Hloop|].
    destruct (JS.truthy text); [apply grows_appendText|apply grows_refl].
Qed.

Lemma processTokens_grows tokens acc : Props.grows acc (processTokens tokens acc).
Proof.
  revert acc. induction tokens as [|t ts IH]; intros acc; [apply grows_refl|].
  cbn [processTokens fold_left].
  eapply grows_trans; [apply processToken_grows|apply IH].
Qed.

Lemma processLine_grows inlineTokens line acc :
  Props.grows acc (processLine inlineTokens line acc).
Proof.
  unfold processLine. destruct (headingMatch line) as [[level content]|].
  - apply grows_pushRange; cbn [start end_];
      [apply processTokens_grows|apply processTokens_grows|reflexivity].
  - destruct (JS.truthy _); [apply processTokens_grows|apply grows_refl].
Qed.

Lemma processLines_grows inlineTokens lines acc :
  Props.grows acc (processLines inlineTokens lines acc).
Proof.
  revert acc. induction lines as [|line rest IH]; intros acc; [apply grows_refl|].
  cbn [processLines]. eapply grows_trans; [|apply IH].
  destruct rest; [apply processLine_grows|].
  eapply grows_trans; [apply processLine_grows|apply grows_appendText].
Qed.

Lemma compiled_ranges_within inlineTokens markdown :
  Props.rangesWithin
    (String.length (fst (compileRanges inlineTokens markdown)))
    (snd (compileRanges inlineTokens markdown)).
Proof.
  apply (processLines_grows inlineTokens (JS.split_LF markdown) (EmptyString, [])).
  constructor.
Qed.

(** What one range gives is empty or one style request over the shifted
    range. *)
Lemma lowerRange_shape startIndex range req :
  In req (lowerRange startIndex [] range) ->
  Props.styleRange req = Some (shiftedRange startIndex range) /\
  deleteContentRange req = None /\ insertText req = None.
Proof.
  unfold lowerRange, pushTextStyle.
  destruct (type range); cbn;
    try (intros [<-|[]]; repeat split).
  - destruct (url range) as [u|]; [destruct (JS.truthy u)|]; cbn;
      try (intros [<-|[]]; repeat split); intros [].
  - destruct (_ && _); cbn; [intros [<-|[]]; repeat split|intros []].
Qed.

Lemma formatting_request_range
    (inlineTokens : string -> list marked.Token) (markdown : string)
    (startIndex : Z) (req : Request) :
  In req (formattingRequests
            (parseMarkdownToDocsRequests inlineTokens markdown startIndex)) ->
  exists first last : Z,
    Props.styleRange req
    = Some {| range_segmentId := None; startIndex := Some first;
              endIndex := Some last; range_tabId := None |} /\
    (startIndex <= first <= last)%Z /\
    (last <= startIndex
             + Z.of_nat (String.length
                           (plainText (parseMarkdownToDocsRequests inlineTokens
                                         markdown startIndex))))%Z /\
    deleteContentRange req = None /\ insertText req = None.
Proof.
  unfold parseMarkdownToDocsRequests; cbn [formattingRequests plainText].
  rewrite lowerRanges_flat_map, in_flat_map. intros (range & Hin & Hreq).
  pose proof (compiled_ranges_within inlineTokens markdown) as Hall.
  unfold Props.rangesWithin in Hall. rewrite Forall_forall in Hall.
  apply list_elem_of_In in Hin. specialize (Hall range Hin). cbn beta in Hall.
  destruct (lowerRange_shape startIndex range req Hreq) as (Hrange & Hdel & Hins).
  exists (startIndex + Z.of_nat (start range))%Z,
         (startIndex + Z.of_nat (end_ range))%Z.
  repeat split; try assumption; lia.
Qed.

(** X1: every formatting request of the compiler is a style request whose
    range lies within the plain text as placed at [startIndex]:
    [startIndex <= start <= end <= startIndex + len(plainText)]; it has no
    tab or segment, and is neither a delete nor an insert.  This holds for
    every token tree that the lexer may return. *)
Theorem formatting_requests_within_plainText
    (inlineTokens : string -> list marked.Token) (markdown : string)
    (startIndex : Z) (req : Request) :
  In req (formattingRequests
            (parseMarkdownToDocsRequests inlineTokens markdown startIndex)) ->
  exists first last : Z,
    Props.styleRange req
    = Some {| range_segmentId := None; startIndex := Some first;
              endIndex := Some last; range_tabId := None |} /\
    (startIndex <= first <= last)%Z /\
    (last <= startIndex
             + Z.of_nat (String.length
                           (plainText (parseMarkdownToDocsRequests inlineTokens
                                         markdown startIndex))))%Z /\
    deleteContentRange req = None /\ insertText req = None.
Proof. apply formatting_request_range. Qed.

Lemma formatting_requests_within_plainText_witness :
  exists first last : Z,
    Props.styleRange
      {| deleteContentRange := None; insertText := None;
         updateTextStyle :=
           Some {| uts_range :=
                     Some {| range_segmentId := None; startIndex := Some 7%Z;
                             endIndex := Some 12%Z; range_tabId := None |};
                   textStyle :=
                     {| bold := Some true; italic := None;
                        weightedFontFamily := None; backgroundColor := None;
                        link := None; foregroundColor := None;
                        underline := None |};
                   uts_fields := "bold" |};
         updateParagraphStyle := None |}
    = Some {| range_segmentId := None; startIndex := Some first;
              endIndex := Some last; range_tabId := None |} /\
    (1 <= first <= last)%Z /\
    (last <= 1 + Z.of_nat (String.length
                             (plainText (parseMarkdownToDocsRequests
                                           marked.exampleTokens
                                           "Hello **world**" 1))))%Z /\
    @None DeleteContentRangeRequest = None /\ @None InsertTextRequest = None.
Proof.
  apply (formatting_requests_within_plainText marked.exampleTokens
           "Hello **world**" 1).
  vm_compute. left. reflexivity.
Defined.

Lemma omap_flat_map {A B C} (f : B -> option C) (g : A -> list B) (l : list A) :
  omap f (flat_map g l) = flat_map (fun a => omap f (g a)) l.
Proof.
  induction l as [|a l IH]; [reflexivity|].
  cbn [flat_map]. now rewrite omap_app, IH.
Qed.

Lemma reanchor_lowerRange tabId adjustedPosition range :
  omap (Spec.reanchorTextStyleOnly tabId adjustedPosition) (lowerRange 0 [] range)
  = omap (Props.textStyleOnTab tabId) (lowerRange adjustedPosition [] range).
Proof.
  assert (Hrange :
    Spec.reanchoredRange tabId adjustedPosition (Some (shiftedRange 0 range))
    = Props.rangeOnTab tabId (shiftedRange adjustedPosition range)).
  { unfold Spec.reanchoredRange, Props.rangeOnTab, shiftedRange, JS.orZero;
      cbn. f_equal; f_equal; lia. }
  unfold lowerRange, pushTextStyle.
  destruct (type range); cbn - [Spec.reanchoredRange Props.rangeOnTab shiftedRange];
    try (unfold Spec.reanchoredTextStyle;
         cbn - [Spec.reanchoredRange Props.rangeOnTab shiftedRange];
         now rewrite Hrange).
  - destruct (url range) as [u|]; [destruct (JS.truthy u)|];
      cbn - [Spec.reanchoredRange Props.rangeOnTab shiftedRange];
      try reflexivity.
    unfold Spec.reanchoredTextStyle;
      cbn - [Spec.reanchoredRange Props.rangeOnTab shiftedRange].
    now rewrite Hrange.
  - destruct (_ && _); reflexivity.
Qed.

(** X2: the text styles that the planner pushes for an occurrence at
    [adjustedPosition], from the replacement compiled at offset 0, are the
    text styles of the same markdown compiled at offset [adjustedPosition],
    put on the tab: re-anchoring and compiling at an offset agree. *)
Theorem planner_styles_are_compiled_at_position
    (inlineTokens : string -> list marked.Token) (markdown : string)
    (tabId : option string) (adjustedPosition : Z) (requests : list Request) :
  fold_left (DocsService.pushAdjusted tabId adjustedPosition)
    (formattingRequests (parseMarkdownToDocsRequests inlineTokens markdown 0))
    requests
  = requests ++
    omap (Props.textStyleOnTab tabId)
      (formattingRequests
         (parseMarkdownToDocsRequests inlineTokens markdown adjustedPosition)).
Proof.
  rewrite pushAdjusted_fold. f_equal.
  unfold parseMarkdownToDocsRequests; cbn [formattingRequests].
  rewrite !lowerRanges_flat_map, !omap_flat_map.
  induction (snd (compileRanges inlineTokens markdown)) as [|r rs IH];
    [reflexivity|].
  cbn [flat_map]. now rewrite IH, reanchor_lowerRange.
Qed.

End CompilerBounds.

(** ** The heading pattern *)

Section HeadingPattern.
Import markdownToDocsRequests.

Lemma matchSpaces_sound s content :
  matchSpaces s = Some content ->
  exists spaces,
    s = spaces +:+ content /\ spaces <> EmptyString /\
    Props.allWhiteSpace spaces = true /\
    content <> EmptyString /\ noLineTerminator content = true.
Proof.
  revert content. induction s as [|c s IH]; intros content; [discriminate|].
  cbn [matchSpaces]. destruct (JS.isWhiteSpace c) eqn:Ec; [|discriminate].
  destruct (matchSpaces s) as [ct|] eqn:Es.
  - intros [= ->]. destruct (IH content eq_refl) as (sp & -> & Hne & Hws & Hc & Hlt).
    exists (String c sp). repeat split; try assumption; [discriminate|].
    cbn [Props.allWhiteSpace]. now rewrite Ec, Hws.
  - unfold matchContent. destruct s as [|d s]; [discriminate|].
    destruct (noLineTerminator (String d s)) eqn:Hlt; [|discriminate].
    intros [= <-]. exists (String c EmptyString).
    repeat split; try assumption; try discriminate.
    cbn [Props.allWhiteSpace]. now rewrite Ec.
Qed.

Lemma matchHashes_sound more seen s level content :
  matchHashes more seen s = Some (level, content) ->
  exists hashes spaces,
    level = (seen + hashes)%nat /\ (hashes <= more)%nat /\ (1 <= level)%nat /\
    s = Spec.repeatThen "#" hashes (spaces +:+ content) /\
    spaces <> EmptyString /\ Props.allWhiteSpace spaces = true /\
    content <> EmptyString /\ noLineTerminator content = true.
Proof.
  revert seen s.
  assert (Hstop : forall seen s more,
    match seen with
    | O => None
    | S _ => option_map (pair seen) (matchSpaces s)
    end = Some (level, content) ->
    exists hashes spaces,
      level = (seen + hashes)%nat /\ (hashes <= more)%nat /\ (1 <= level)%nat /\
      s = Spec.repeatThen "#" hashes (spaces +:+ content) /\
      spaces <> EmptyString /\ Props.allWhiteSpace spaces = true /\
      content <> EmptyString /\ noLineTerminator content = true).
  { intros seen s more' H. destruct seen as [|seen]; [discriminate|].
    destruct (matchSpaces s) as [ct|] eqn:Es; [|discriminate].
    cbn in H. injection H as <- ->.
    destruct (matchSpaces_sound s content Es) as (sp & -> & Hrest).
    exists 0%nat, sp. repeat split; try apply Hrest; lia. }
  induction more as [|more IH]; intros seen s.
  - cbn [matchHashes]. intros H. apply Hstop. now destruct s.
  - cbn [matchHashes]. destruct s as [|c s]; [apply Hstop|].
    destruct (Ascii.eqb_spec c "#") as [->|Hc]; [|apply Hstop].
    destruct (matchHashes more (S seen) s) as [[l ct]|] eqn:E; [|apply Hstop].
    intros [= -> ->].
    destruct (IH (S seen) s E) as (hashes & sp & Hl & Hh & H1 & -> & Hrest).
    exists (S hashes), sp. repeat split; try apply Hrest; try lia.
Qed.

(** X3: when a line matches the heading pattern, it is [level] hashes,
    then white space (at least one code unit), then the content; the
    level is from 1 to 6 and the content is not empty and has no line
    terminator.  So a line that does not begin with a hash, or that has no
    white space after its hashes, is never a heading. *)
Theorem heading_match_decomposes_line (line : string) (level : nat) (content : string) :
  headingMatch line = Some (level, content) ->
  (1 <= level <= 6)%nat /\
  exists spaces,
    line = Spec.repeatThen "#" level (spaces +:+ content) /\
    spaces <> EmptyString /\ Props.allWhiteSpace spaces = true /\
    content <> EmptyString /\ noLineTerminator content = true.
Proof.
  intros H. destruct (matchHashes_sound 6 0 line level content H)
    as (hashes & sp & Hl & Hh & H1 & Hline & Hrest).
  cbn in Hl. subst hashes. split; [lia|]. exists sp. split; assumption.
Qed.

Lemma heading_match_decomposes_line_witness :
  (1 <= 2 <= 6)%nat /\
  exists spaces,
    "## Title" = Spec.repeatThen "#" 2 (spaces +:+ "Title") /\
    spaces <> EmptyString /\ Props.allWhiteSpace spaces = true /\
    "Title" <> EmptyString /\ noLineTerminator "Title" = true.
Proof.
  apply (heading_match_decomposes_line "## Title" 2 "Title"). reflexivity.
Defined.

Lemma matchSpaces_complete spaces content :
  spaces <> EmptyString -> Props.allWhiteSpace spaces = true ->
  Props.startsWithoutSpace content = true -> noLineTerminator content = true ->
  matchSpaces (spaces +:+ content) = Some content.
Proof.
  intros Hne Hws Hstart Hlt.
  assert (Hcontent : matchSpaces content = None /\ matchContent content = Some content).
  { destruct content as [|d ct]; [discriminate|].
    cbn [Props.startsWithoutSpace] in Hstart.
    apply negb_true_iff in Hstart. split.
    - cbn [matchSpaces]. now rewrite Hstart.
    - unfold matchContent. now rewrite Hlt. }
  induction spaces as [|c sp IH]; [congruence|].
  cbn [Props.allWhiteSpace] in Hws. apply andb_true_iff in Hws as [Hc Hsp].
  change (String c sp +:+ content) with (String c (sp +:+ content)).
  cbn [matchSpaces]. rewrite Hc. destruct sp as [|c' sp].
  - change (EmptyString +:+ content) with content.
    now rewrite (proj1 Hcontent), (proj2 Hcontent).
  - rewrite IH; [reflexivity|discriminate|assumption].
Qed.

Lemma matchHashes_complete hashes more seen rest content :
  (hashes <= more)%nat -> (1 <= seen + hashes)%nat ->
  matchSpaces rest = Some content ->
  matchHashes more seen (Spec.repeatThen "#" hashes rest)
  = Some ((seen + hashes)%nat, content).
Proof.
  intros Hle H1 Hrest. revert more seen Hle H1.
  induction hashes as [|hashes IH]; intros more seen Hle H1.
  - cbn [Spec.repeatThen]. destruct seen as [|seen]; [lia|].
    assert (Hstop : option_map (pair (S seen)) (matchSpaces rest)
                    = Some ((S seen + 0)%nat, content))
      by (rewrite Hrest; cbn; do 2 f_equal; lia).
    destruct more as [|more]; cbn [matchHashes]; [now destruct rest|].
    destruct rest as [|c rest]; [discriminate|].
    cbn [matchSpaces] in Hrest.
    destruct (Ascii.eqb_spec c "#") as [->|_]; [discriminate|].
    cbn [matchSpaces]. exact Hstop.
  - destruct more as [|more]; [lia|].
    cbn [Spec.repeatThen matchHashes]. rewrite Ascii.eqb_refl.
    rewrite (IH more (S seen)) by lia. do 2 f_equal. lia.
Qed.

(** X4: a line made of one to six hashes, white space, and a content that
    begins with a code unit that is not white space and has no line
    terminator matches the heading pattern, with the number of hashes as
    level and that content as group 2. *)
Theorem heading_line_matches (hashes : nat) (spaces content : string) :
  (1 <= hashes <= 6)%nat ->
  spaces <> EmptyString -> Props.allWhiteSpace spaces = true ->
  Props.startsWithoutSpace content = true -> noLineTerminator content = true ->
  headingMatch (Spec.repeatThen "#" hashes (spaces +:+ content))
  = Some (hashes, content).
Proof.
  intros Hh Hne Hws Hstart Hlt. unfold headingMatch.
  rewrite (matchHashes_complete hashes 6 0 (spaces +:+ content) content);
    [reflexivity|lia|lia|].
  now apply matchSpaces_complete.
Qed.

Lemma heading_line_matches_witness :
  headingMatch (Spec.repeatThen "#" 3 ("  " +:+ "Plan **B**"))
  = Some (3%nat, "Plan **B**").
Proof.
  apply (heading_line_matches 3 "  " "Plan **B**");
    [lia|discriminate|reflexivity|reflexivity|reflexivity].
Defined.

End HeadingPattern.

(** ** Line breaks: no run of three newlines *)

Section LineBreakRuns.
Import markdownToDocsRequests.

Lemma runs_processMarkdownLineBreaks text :
  Spec.runs (processMarkdownLineBreaks text)
  = map Spec.collapseRun (Spec.runs text).
Proof.
  unfold processMarkdownLineBreaks.
  rewrite (proj1 (replaceNewlineRuns_runs text)). unfold Spec.collapseNewlineRuns.
  apply runs_unruns, collapse_wf, runs_wf.
Qed.

(** X5: the result of [processMarkdownLineBreaks] has no run of more than
    two newlines, and a text without such a run is returned as it is. *)
Theorem processMarkdownLineBreaks_leaves_no_long_run :
  (forall text c n,
      In (c, n) (Spec.runs (processMarkdownLineBreaks text)) ->
      c = JS.LF -> (n <= 2)%nat) /\
  (forall text,
      (forall c n, In (c, n) (Spec.runs text) -> c = JS.LF -> (n <= 2)%nat) ->
      processMarkdownLineBreaks text = text).
Proof.
  split.
  - intros text c n. rewrite runs_processMarkdownLineBreaks, in_map_iff.
    intros ([c' n'] & Heq & _) ->. unfold Spec.collapseRun in Heq.
    cbn [fst snd] in Heq.
    destruct (Ascii.eqb_spec c' JS.LF) as [->|Hc'];
      [|injection Heq as -> _; contradiction].
    cbn [andb] in Heq. destruct (Nat.leb_spec 2 n'); injection Heq as <-; lia.
  - intros text Hshort. unfold processMarkdownLineBreaks.
    rewrite (proj1 (replaceNewlineRuns_runs text)). unfold Spec.collapseNewlineRuns.
    rewrite <- (unruns_runs text) at 2. f_equal.
    rewrite <- (map_id (Spec.runs text)) at 2. apply map_ext_in.
    intros [c n] Hin. unfold Spec.collapseRun; cbn [fst snd].
    destruct (Ascii.eqb_spec c JS.LF) as [->|_]; [|reflexivity]. cbn [andb].
    specialize (Hshort JS.LF n Hin eq_refl).
    destruct (Nat.leb_spec 2 n); [|reflexivity]. f_equal. lia.
Qed.

End LineBreakRuns.

(** ** The scan of the planner *)

Section ScanFacts.
Import DocsService docs_v1.

Lemma indexOf_at (documentText findText : string) (i : nat) :
  (i <= String.length documentText)%nat ->
  JS.indexOf documentText findText (Z.of_nat i)
  = match String.index i findText documentText with
    | Some k => Z.of_nat k
    | None => (-1)%Z
    end.
Proof.
  intros Hi. unfold JS.indexOf.
  replace (Z.to_nat (Z.min (Z.max (Z.of_nat i) 0)
                       (Z.of_nat (String.length documentText)))) with i by lia.
  reflexivity.
Qed.

Lemma scanOccurrences_leftmost fuel documentText findText i occurrences found :
  findText <> EmptyString ->
  (i <= String.length documentText)%nat ->
  scanOccurrences fuel documentText findText (Z.of_nat i) occurrences = Some found ->
  exists new,
    found = occurrences ++ new /\
    Props.leftmostFrom documentText findText i new.
Proof.
  intros Hne. revert i occurrences.
  induction fuel as [|fuel IH]; intros i occurrences Hi; [discriminate|].
  cbn [scanOccurrences]. rewrite indexOf_at by assumption.
  destruct (String.index i findText documentText) as [k|] eqn:E.
  - destruct (Z.eqb_spec (Z.of_nat k) (-1)) as [|_]; [lia|].
    destruct (index_bounds _ _ _ _ E) as [Hik Hk].
    replace (Z.of_nat k + Z.of_nat (String.length findText))%Z
      with (Z.of_nat (k + String.length findText)) by lia.
    intros H. apply IH in H as (new & -> & Hnew); [|lia].
    exists ((Z.of_nat k + 1)%Z :: new). split; [now rewrite <- app_assoc|].
    exists k. repeat split; try assumption.
    + now apply index_correct1 in E.
    + intros p [Hp1 Hp2]. now apply (index_correct2 _ _ _ _ E).
  - cbn. intros [= <-]. exists []. split; [now rewrite app_nil_r|].
    intros p Hp. now apply (index_correct3 _ _ _ _ E).
Qed.

(** X6: for a [findText] that is not empty the scan ends and records the
    leftmost occurrences that do not overlap: each recorded index (1-based)
    is a match of [findText], it is the first match at or after the end of
    the occurrence before, and no match is left after the last one. *)
Theorem scan_finds_leftmost_occurrences
    (fuel : nat) (documentText findText : string) :
  findText <> EmptyString ->
  (String.length documentText < fuel)%nat ->
  exists occurrences,
    scanOccurrences fuel documentText findText 0 [] = Some occurrences /\
    Props.leftmostFrom documentText findText 0 occurrences.
Proof.
  intros Hne Hfuel.
  destruct (scanOccurrences_terminates fuel documentText findText 0 [] Hne)
    as [found Hfound]; [lia|lia|].
  exists found. split; [assumption|].
  destruct (scanOccurrences_leftmost fuel documentText findText 0 [] found Hne)
    as (new & -> & Hnew); [lia|exact Hfound|exact Hnew].
Qed.

Lemma scan_finds_leftmost_occurrences_witness :
  exists occurrences,
    scanOccurrences 5 "aaaa" "aa" 0 [] = Some occurrences /\
    Props.leftmostFrom "aaaa" "aa" 0 occurrences.
Proof.
  apply (scan_finds_leftmost_occurrences 5 "aaaa" "aa"); [discriminate|].
  cbn. lia.
Defined.

Lemma Forall_concat_imap {A B} (P : B -> Prop) (f : nat -> A -> list B) (l : list A) :
  (forall i x, Forall P (f i x)) -> Forall P (concat (imap f l)).
Proof.
  revert f. induction l as [|x l IH]; intros f Hf; [constructor|].
  cbn [imap concat]. apply Forall_app. split; [apply Hf|].
  apply IH. intros i y. apply Hf.
Qed.

Lemma length_concat_imap {A B} (f : nat -> A -> list B) (l : list A) (n : nat) :
  (forall i x, length (f i x) = n) ->
  length (concat (imap f l)) = (length l * n)%nat.
Proof.
  revert f. induction l as [|x l IH]; intros f Hf; [reflexivity|].
  cbn [imap concat length]. rewrite length_app, Hf, IH; [lia|].
  intros i y. apply Hf.
Qed.

Lemma reanchored_on_tab tabId adjustedPosition (ops : list Request) :
  Forall (fun req => Props.addressedTabs req = [tabId])
    (omap (Spec.reanchorTextStyleOnly tabId adjustedPosition) ops) /\
  length (omap (Spec.reanchorTextStyleOnly tabId adjustedPosition) ops)
  = length (omap updateTextStyle ops).
Proof.
  induction ops as [|op ops [IH1 IH2]]; [split; [constructor|reflexivity]|].
  cbn [omap list_omap].
  destruct (updateTextStyle op) as [uts|] eqn:E.
  - assert (Hop : Spec.reanchorTextStyleOnly tabId adjustedPosition op
                  = Some {| deleteContentRange := None; insertText := None;
                            updateTextStyle :=
                              Some (Spec.reanchoredTextStyle tabId adjustedPosition uts);
                            updateParagraphStyle := None |})
      by (unfold Spec.reanchorTextStyleOnly; now rewrite E).
    rewrite Hop. split; [constructor; [reflexivity|exact IH1]|].
    cbn [length]. now rewrite IH2.
  - assert (Hop : Spec.reanchorTextStyleOnly tabId adjustedPosition op = None)
      by (unfold Spec.reanchorTextStyleOnly; now rewrite E).
    rewrite Hop. split; assumption.
Qed.

(** X7: every request that the planner emits addresses the planner's tab
    (the [tabId] of its one range or location is the [tabId] argument),
    and each occurrence gives the same number of requests: the delete, the
    insert, and one per [updateTextStyle] of the compiled replacement. *)
Theorem planner_requests_address_the_tab
    (tabId : option string) (findText processedText : string)
    (originalFormattingRequests : list Request)
    (content : option (list StructuralElement)) (fuel : nat) :
  findText <> EmptyString ->
  (String.length (_getFullDocumentText content) < fuel)%nat ->
  exists occurrences requests,
    scanOccurrences fuel (_getFullDocumentText content) findText 0 []
      = Some occurrences /\
    _generateReplacementRequests tabId findText processedText
      originalFormattingRequests fuel content = Some requests /\
    Forall (fun req => Props.addressedTabs req = [tabId]) requests /\
    length requests
    = (length occurrences
       * (2 + length (omap updateTextStyle originalFormattingRequests)))%nat.
Proof.
  intros Hne Hfuel.
  destruct (planner_plan tabId findText processedText originalFormattingRequests
              fuel content Hne Hfuel) as (occurrences & Hscan & Hplan).
  exists occurrences. eexists. split; [exact Hscan|]. split; [exact Hplan|].
  unfold Spec.plan. split.
  - apply Forall_concat_imap. intros i occurrence.
    unfold Spec.blockOfTextStyles. constructor; [reflexivity|].
    constructor; [reflexivity|]. apply reanchored_on_tab.
  - apply length_concat_imap. intros i occurrence.
    unfold Spec.blockOfTextStyles. cbn [length].
    now rewrite (proj2 (reanchored_on_tab tabId _ originalFormattingRequests)).
Qed.

Lemma planner_requests_address_the_tab_witness :
  exists occurrences requests,
    scanOccurrences 13
      (_getFullDocumentText (Some [paragraph [Some "Hello world!"]]))
      "Hello" 0 [] = Some occurrences /\
    _generateReplacementRequests (Some "tab-1") "Hello" "Hi" [] 13
      (Some [paragraph [Some "Hello world!"]]) = Some requests /\
    Forall (fun req => Props.addressedTabs req = [Some "tab-1"]) requests /\
    length requests
    = (length occurrences * (2 + length (omap updateTextStyle [])))%nat.
Proof.
  apply (planner_requests_address_the_tab (Some "tab-1") "Hello" "Hi" [] 
           (Some [paragraph [Some "Hello world!"]]) 13); [discriminate|].
  vm_compute. lia.
Defined.

End ScanFacts.

(** ** replaceText and insertText as a whole *)

Section MethodFacts.
Import DocsService markdownToDocsRequests docs_v1.

Variable getAuthenticatedClient : string + unit.
Variable get : string -> string + list Tab.
Variable batchUpdate : string -> list Request -> string + string.
Variable extractDocId : string -> option string.
Variable inlineTokens : string -> list marked.Token.

Lemma forEachTab_returns fuel findText processedText fmt tabs requests log :
  findText <> EmptyString ->
  Forall (fun tab =>
            (String.length (_getFullDocumentText (documentTab_body_content tab))
             < fuel)%nat) tabs ->
  exists collected,
    forEachTab fuel findText processedText fmt tabs requests log
    = (Api.Returned collected, log).
Proof.
  intros Hne Hall. revert requests.
  induction Hall as [|tab tabs Htab _ IH]; intros requests; [eexists; reflexivity|].
  cbn [forEachTab]. unfold mbind, Api_bind, Api.bind, Api.terminating.
  destruct (planner_plan (tabProperties_tabId tab) findText processedText fmt fuel
              (documentTab_body_content tab) Hne Htab) as (occs & _ & ->).
  apply IH.
Qed.

(** X8: [replaceText] for a [tabId] that no tab of the document has
    returns the error 'Tab with ID ... not found.' after the one call of
    [documents.get]; it makes no [batchUpdate] call. *)
Theorem replaceText_reports_missing_tab
    (fuel : nat) (documentId findText replaceText t : string) (tabs : list Tab) :
  getAuthenticatedClient = inr tt ->
  get (docIdOf extractDocId documentId) = inr tabs ->
  t <> EmptyString ->
  findTab tabs t = None ->
  Api.run
    (DocsService.replaceText getAuthenticatedClient get batchUpdate extractDocId
       inlineTokens fuel documentId findText replaceText (Some t))
  = (Api.Returned (Api.JsonError ("Tab with ID " +:+ t +:+ " not found.")),
     [documents_get (docIdOf extractDocId documentId)]).
Proof.
  intros Hauth Hget Ht Hfind.
  unfold Api.run, DocsService.replaceText, replaceText_try, Api.tryCatch,
    getDocsClient, collectRequests.
  rewrite Hauth. unfold mbind, Api_bind, Api.bind, mret, Api_ret, Api.ret, Api.await.
  rewrite Hget.
  assert (Htruthy : truthyTabId (Some t) = Some t).
  { unfold truthyTabId, JS.truthy. destruct (String.eqb_spec t ""); [contradiction|].
    reflexivity. }
  rewrite Htruthy, Hfind. reflexivity.
Qed.

(** X9: with a [findText] that is not empty, [replaceText] returns an
    envelope in every environment (it neither throws nor runs for ever),
    and its remote calls are none (no client), [documents.get] alone, or
    [documents.get] followed by one [batchUpdate] with a request list
    that is not empty. *)
Theorem replaceText_returns_an_envelope
    (fuel : nat) (documentId findText replaceText : string)
    (tabId : option string) :
  findText <> EmptyString ->
  (forall tabs,
      get (docIdOf extractDocId documentId) = inr tabs ->
      Forall (fun tab =>
                (String.length (_getFullDocumentText (documentTab_body_content tab))
                 < fuel)%nat) tabs) ->
  exists text log,
    Api.run
      (DocsService.replaceText getAuthenticatedClient get batchUpdate extractDocId
         inlineTokens fuel documentId findText replaceText tabId)
    = (Api.Returned text, log) /\
    (log = [] \/
     log = [documents_get (docIdOf extractDocId documentId)] \/
     exists requests,
       requests <> [] /\
       log = [documents_get (docIdOf extractDocId documentId);
              documents_batchUpdate (docIdOf extractDocId documentId) requests]).
Proof.
  intros Hne Hfuel.
  unfold Api.run, DocsService.replaceText, replaceText_try, Api.tryCatch,
    getDocsClient.
  destruct getAuthenticatedClient as [message|[]];
    [do 2 eexists; split; [reflexivity|now left]|].
  unfold mbind, Api_bind, Api.bind, mret, Api_ret, Api.ret, Api.await, Api.throw.
  destruct (get (docIdOf extractDocId documentId)) as [message|tabs] eqn:Hget;
    [do 2 eexists; split; [reflexivity|right; now left]|].
  specialize (Hfuel tabs eq_refl).
  set (processedText := processMarkdownLineBreaks _).
  set (fmt := formattingRequests _).
  assert (Hcollect :
    (exists message,
        collectRequests fuel findText processedText fmt tabs tabId
          ([] ++ [documents_get (docIdOf extractDocId documentId)])
        = (Api.Thrown message, [documents_get (docIdOf extractDocId documentId)]))
    \/ exists requests,
        collectRequests fuel findText processedText fmt tabs tabId
          ([] ++ [documents_get (docIdOf extractDocId documentId)])
        = (Api.Returned requests, [documents_get (docIdOf extractDocId documentId)])).
  { unfold collectRequests. destruct (truthyTabId tabId) as [t|].
    - destruct (findTab tabs t) as [tab|] eqn:Hfind; [|left; eexists; reflexivity].
      right. unfold Api.terminating.
      assert (Htab : (String.length
                        (_getFullDocumentText (documentTab_body_content tab))
                      < fuel)%nat).
      { rewrite Forall_forall in Hfuel. apply Hfuel.
        apply list_elem_of_In. unfold findTab in Hfind.
        now apply find_some in Hfind as [Hin _]. }
      destruct (planner_plan (Some t) findText processedText fmt fuel
                  (documentTab_body_content tab) Hne Htab) as (occs & _ & ->).
      eexists; reflexivity.
    - right. now apply forEachTab_returns. }
  destruct Hcollect as [[message ->]|[requests ->]];
    [do 2 eexists; split; [reflexivity|right; now left]|].
  destruct requests as [|req requests].
  - do 2 eexists; split; [reflexivity|right; now left].
  - cbn [length Nat.ltb Nat.leb].
    destruct (batchUpdate _ _) as [message|reply];
      (do 2 eexists; split; [reflexivity|right; right; eexists; split;
                                          [|reflexivity]; discriminate]).
Qed.

End MethodFacts.

Lemma replaceText_reports_missing_tab_witness :
  Api.run
    (DocsService.replaceText (inr tt)
       (fun _ => inr [ {| docs_v1.tabProperties_tabId := Some "tab-1";
                          docs_v1.documentTab_body_content := None |} ])
       (fun _ _ => inr EmptyString) (fun _ => None) marked.textOnly
       1 "doc" "Hello" "Hi" (Some "tab-2"))
  = (Api.Returned (Api.JsonError "Tab with ID tab-2 not found."),
     [DocsService.documents_get "doc"]).
Proof.
  apply (replaceText_reports_missing_tab (inr tt)
           (fun _ => inr [ {| docs_v1.tabProperties_tabId := Some "tab-1";
                              docs_v1.documentTab_body_content := None |} ])
           (fun _ _ => inr EmptyString) (fun _ => None) marked.textOnly
           1 "doc" "Hello" "Hi" "tab-2" _ eq_refl eq_refl);
    [discriminate|reflexivity].
Defined.

Lemma replaceText_returns_an_envelope_witness :
  exists text log,
    Api.run
      (DocsService.replaceText (inr tt)
         (fun _ => inr [ {| docs_v1.tabProperties_tabId := None;
                            docs_v1.documentTab_body_content :=
                              Some [docs_v1.paragraph [Some "Hello world!"]] |} ])
         (fun _ _ => inl "API Error") (fun _ => None) marked.textOnly
         13 "test-doc-id" "Hello" "Hi" None)
    = (Api.Returned text, log) /\
    (log = [] \/
     log = [DocsService.documents_get "test-doc-id"] \/
     exists requests,
       requests <> [] /\
       log = [DocsService.documents_get "test-doc-id";
              DocsService.documents_batchUpdate "test-doc-id" requests]).
Proof.
  apply (replaceText_returns_an_envelope (inr tt)
           (fun _ => inr [ {| docs_v1.tabProperties_tabId := None;
                              docs_v1.documentTab_body_content :=
                                Some [docs_v1.paragraph [Some "Hello world!"]] |} ])
           (fun _ _ => inl "API Error") (fun _ => None) marked.textOnly
           13 "test-doc-id" "Hello" "Hi" None); [discriminate|].
  intros tabs [= <-]. repeat constructor.
Defined.

(** ** The batches of insertText and appendText; getText *)

Section BatchFacts.
Import DocsService markdownToDocsRequests docs_v1.






Lemma readContent_text content :
  DocsReads.readContent content
  = _getFullDocumentText (Some (map DocsReads.structuralElement content)).
Proof.
  unfold DocsReads.readContent, _getFullDocumentText.
  generalize EmptyString. induction content as [|e content IH]; intros acc;
    [reflexivity|].
  cbn [fold_left map]. apply IH.
Qed.

Section GetText.
Variable getAuthenticatedClient : string + unit.
Variable get : string -> string + list DocsReads.DocTab.
Variable extractDocId : string -> option string.
Variable validateAndExtractDocId : string -> string + string.

(** X12: on a document with one tab, [getText] without a [tabId] returns
    what [getText] with the id of that tab returns: the plain text of the
    tab, which is the text that [replaceText] searches ([''] for a tab
    without body); the one remote call is [documents.get]. *)
Theorem getText_single_tab
    (documentId id t : string) (tab : DocsReads.DocTab) :
  validateAndExtractDocId documentId = inr id ->
  getAuthenticatedClient = inr tt ->
  get id = inr [tab] ->
  DocsReads.tab_tabId tab = Some t ->
  t <> EmptyString ->
  Api.run (DocsReads.getText getAuthenticatedClient get validateAndExtractDocId
             documentId None)
  = (Api.Returned
       (DocsReads.PlainText
          (_getFullDocumentText
             (documentTab_body_content (DocsReads.toTab tab)))),
     [documents_get id]) /\
  Api.run (DocsReads.getText getAuthenticatedClient get validateAndExtractDocId
             documentId (Some t))
  = Api.run (DocsReads.getText getAuthenticatedClient get validateAndExtractDocId
               documentId None).
Proof.
  intros Hid Hauth Hget Htab Ht.
  assert (Htruthy : truthyTabId (Some t) = Some t).
  { unfold truthyTabId, JS.truthy. destruct (String.eqb_spec t ""); [contradiction|].
    reflexivity. }
  assert (Hfind : DocsReads.findDocTab [tab] t = Some tab).
  { unfold DocsReads.findDocTab. cbn [find]. rewrite Htab.
    now rewrite bool_decide_eq_true_2. }
  assert (Htext : DocsReads.tabText tab
                  = _getFullDocumentText
                      (documentTab_body_content (DocsReads.toTab tab))).
  { unfold DocsReads.tabText, DocsReads.toTab; cbn [documentTab_body_content].
    destruct (DocsReads.tab_content tab) as [content|]; [|reflexivity].
    apply readContent_text. }
  unfold Api.run, DocsReads.getText, Api.tryCatch, DocsReads.getDocsClient.
  rewrite Hid, Hauth.
  unfold mbind, Api_bind, Api.bind, mret, Api_ret, Api.ret, Api.await.
  rewrite Hget, Htruthy, Hfind. cbn [truthyTabId]. rewrite <- Htext.
  split; [reflexivity|].
  unfold DocsReads.tabText. now destruct (DocsReads.tab_content tab).
Qed.

End GetText.

Lemma getText_single_tab_witness :
  Api.run (DocsReads.getText (inr tt)
             (fun _ => inr [ {| DocsReads.tab_tabId := Some "tab-1";
                                DocsReads.tab_title := Some "Tab 1";
                                DocsReads.tab_content := None |} ])
             (fun d => inr d) "doc" (Some "tab-1"))
  = Api.run (DocsReads.getText (inr tt)
               (fun _ => inr [ {| DocsReads.tab_tabId := Some "tab-1";
                                  DocsReads.tab_title := Some "Tab 1";
                                  DocsReads.tab_content := None |} ])
               (fun d => inr d) "doc" None).
Proof.
  apply (getText_single_tab (inr tt)
           (fun _ => inr [ {| DocsReads.tab_tabId := Some "tab-1";
                              DocsReads.tab_title := Some "Tab 1";
                              DocsReads.tab_content := None |} ])
           (fun d => inr d) "doc" "doc" "tab-1"
           {| DocsReads.tab_tabId := Some "tab-1";
              DocsReads.tab_title := Some "Tab 1";
              DocsReads.tab_content := None |}
           eq_refl eq_refl eq_refl eq_refl).
  discriminate.
Defined.

End BatchFacts.

(** ** The plan as edits of the text *)

Section PlanAsEdits.
Import DocsService docs_v1.

Lemma string_app_assoc (a b c : string) : (a +:+ b) +:+ c = a +:+ (b +:+ c).
Proof.
  induction a as [|x a IH]; [reflexivity|].
  change ((String x a +:+ b) +:+ c) with (String x ((a +:+ b) +:+ c)).
  now rewrite IH.
Qed.

Lemma string_app_nil_r (a : string) : a +:+ EmptyString = a.
Proof.
  induction a as [|x a IH]; [reflexivity|].
  change (String x a +:+ EmptyString) with (String x (a +:+ EmptyString)).
  now rewrite IH.
Qed.

Lemma take_drop_units n s : Props.takeUnits n s +:+ Props.dropUnits n s = s.
Proof.
  revert s. induction n as [|n IH]; intros [|c s]; try reflexivity.
  cbn [Props.takeUnits Props.dropUnits].
  change (String c (Props.takeUnits n s) +:+ Props.dropUnits n s)
    with (String c (Props.takeUnits n s +:+ Props.dropUnits n s)).
  now rewrite IH.
Qed.

Lemma length_takeUnits n s :
  (n <= String.length s)%nat -> String.length (Props.takeUnits n s) = n.
Proof.
  revert s. induction n as [|n IH]; intros [|c s] Hn; cbn in *; try lia.
  rewrite IH; lia.
Qed.

Lemma length_dropUnits n s :
  String.length (Props.dropUnits n s) = (String.length s - n)%nat.
Proof.
  revert s. induction n as [|n IH]; intros [|c s]; cbn; try lia. apply IH.
Qed.

Lemma takeUnits_app a s m :
  Props.takeUnits (String.length a + m) (a +:+ s) = a +:+ Props.takeUnits m s.
Proof.
  induction a as [|x a IH]; [reflexivity|].
  change (String x a +:+ s) with (String x (a +:+ s)).
  change (String x a +:+ Props.takeUnits m s)
    with (String x (a +:+ Props.takeUnits m s)).
  cbn [String.length Nat.add Props.takeUnits]. now rewrite IH.
Qed.

Lemma dropUnits_app a s m :
  Props.dropUnits (String.length a + m) (a +:+ s) = Props.dropUnits m s.
Proof.
  induction a as [|x a IH]; [reflexivity|].
  change (String x a +:+ s) with (String x (a +:+ s)).
  cbn [String.length Nat.add Props.dropUnits]. exact IH.
Qed.

Lemma dropUnits_add n m s :
  Props.dropUnits m (Props.dropUnits n s) = Props.dropUnits (n + m) s.
Proof.
  revert s. induction n as [|n IH]; intros s; [reflexivity|].
  destruct s as [|c s]; [now destruct m|]. cbn [Nat.add Props.dropUnits]. apply IH.
Qed.

Lemma substring_units k n s :
  substring k n s = Props.takeUnits n (Props.dropUnits k s).
Proof.
  revert s. induction k as [|k IH]; intros s.
  - cbn [Props.dropUnits]. revert s. induction n as [|n IHn]; intros [|c s];
      cbn; try reflexivity. now rewrite IHn.
  - destruct s as [|c s]; [now destruct n|]. cbn [substring Props.dropUnits].
    apply IH.
Qed.

Lemma prefix_units findText s :
  String.prefix findText s = true
  <-> Props.takeUnits (String.length findText) s = findText.
Proof.
  rewrite prefix_correct, substring_units. reflexivity.
Qed.

Lemma replaceEvery_skip findText replacement n s :
  Props.replaceEvery findText replacement n s
  = Props.replaceEvery findText replacement 0 (Props.dropUnits n s).
Proof.
  revert s. induction n as [|n IH]; intros s; [reflexivity|].
  destruct s as [|c s]; [reflexivity|].
  cbn [Props.replaceEvery Props.dropUnits]. apply IH.
Qed.

(** Where nothing matches, the text stays. *)
Lemma replaceEvery_no_match findText replacement m s :
  (m <= String.length s)%nat ->
  (forall q, (q < m)%nat ->
     Props.takeUnits (String.length findText) (Props.dropUnits q s) <> findText) ->
  Props.replaceEvery findText replacement 0 s
  = Props.takeUnits m s
    +:+ Props.replaceEvery findText replacement 0 (Props.dropUnits m s).
Proof.
  revert s. induction m as [|m IH]; intros s Hm Hno; [reflexivity|].
  destruct s as [|c s]; [cbn in Hm; lia|].
  cbn [Props.replaceEvery Props.takeUnits Props.dropUnits].
  destruct (String.prefix findText (String c s)) eqn:Ep.
  - apply prefix_units in Ep. exfalso. apply (Hno 0%nat); [lia|exact Ep].
  - change (String c (Props.takeUnits m s) +:+
              Props.replaceEvery findText replacement 0 (Props.dropUnits m s))
      with (String c (Props.takeUnits m s +:+
              Props.replaceEvery findText replacement 0 (Props.dropUnits m s))).
    f_equal. apply IH; [cbn in Hm; lia|].
    intros q Hq. apply (Hno (S q)). lia.
Qed.

(** At a match, the replacement stands for the occurrence. *)
Lemma replaceEvery_match findText replacement s :
  findText <> EmptyString ->
  Props.takeUnits (String.length findText) s = findText ->
  Props.replaceEvery findText replacement 0 s
  = replacement
    +:+ Props.replaceEvery findText replacement 0
          (Props.dropUnits (String.length findText) s).
Proof.
  intros Hne Hmatch. destruct s as [|c s].
  - destruct findText; [congruence|discriminate].
  - cbn [Props.replaceEvery].
    rewrite (proj2 (prefix_units findText (String c s)) Hmatch).
    rewrite replaceEvery_skip. f_equal. f_equal.
    destruct findText as [|x findText]; [congruence|].
    cbn [String.length Props.dropUnits].
    replace (S (String.length findText) - 1)%nat with (String.length findText)
      by lia.
    reflexivity.
Qed.

Lemma applyBatch_styles tabId adjustedPosition ops buffer :
  Props.applyBatch (omap (Spec.reanchorTextStyleOnly tabId adjustedPosition) ops)
    buffer = buffer.
Proof.
  unfold Props.applyBatch. induction ops as [|op ops IH]; [reflexivity|].
  cbn [omap list_omap]. unfold Spec.reanchorTextStyleOnly at 1.
  destruct (updateTextStyle op); cbn [mbind option_bind fold_left]; exact IH.
Qed.

Section Edits.
Variable tabId : option string.
Variable findText processedText : string.
Variable originalFormattingRequests : list Request.
Variable documentText : string.
Hypothesis findText_not_empty : findText <> EmptyString.

(** One block turns [done ++ rest of the text from i] into
    [done ++ mid ++ processedText ++ rest of the text after the occurrence]. *)
Lemma applyBatch_block (done : string) (i k : nat) (offset : Z) :
  (i <= k)%nat ->
  (k + String.length findText <= String.length documentText)%nat ->
  Z.of_nat (String.length done) = (Z.of_nat i + offset)%Z ->
  Props.applyBatch
    (Spec.blockOfTextStyles tabId findText processedText
       originalFormattingRequests (Z.of_nat k + 1 + offset))
    (done +:+ Props.dropUnits i documentText)
  = (done +:+ Props.takeUnits (k - i) (Props.dropUnits i documentText)
     +:+ processedText)
    +:+ Props.dropUnits (k + String.length findText) documentText.
Proof.
  intros Hik Hk Hdone.
  set (s := Props.dropUnits i documentText).
  assert (Hs : (k - i + String.length findText <= String.length s)%nat)
    by (unfold s; rewrite length_dropUnits; lia).
  unfold Spec.blockOfTextStyles, Props.applyBatch. cbn [fold_left].
  fold (Props.applyBatch
          (omap (Spec.reanchorTextStyleOnly tabId (Z.of_nat k + 1 + offset))
             originalFormattingRequests)).
  rewrite applyBatch_styles.
  unfold Props.applyToText at 2. cbn - [Props.takeUnits Props.dropUnits Z.to_nat].
  replace (Z.to_nat (Z.of_nat k + 1 + offset - 1))
    with (String.length done + (k - i))%nat by lia.
  replace (Z.to_nat (Z.of_nat k + 1 + offset
                     + Z.of_nat (String.length findText) - 1))
    with (String.length done + (k - i + String.length findText))%nat by lia.
  rewrite takeUnits_app, dropUnits_app.
  assert (Hlen : (String.length done + (k - i))%nat
                 = (String.length (done +:+ Props.takeUnits (k - i) s) + 0)%nat)
    by (rewrite string_length_app, length_takeUnits; lia).
  rewrite Hlen, takeUnits_app, dropUnits_app.
  assert (Hnil : forall t, Props.takeUnits 0 t = EmptyString)
    by (now intros [|? ?]).
  assert (Hall : forall t, Props.dropUnits 0 t = t) by (now intros [|? ?]).
  rewrite Hnil, Hall, string_app_nil_r.
  unfold s. rewrite dropUnits_add.
  replace (i + (k - i + String.length findText))%nat
    with (k + String.length findText)%nat by lia.
  now rewrite !string_app_assoc.
Qed.

Lemma applyBatch_app a b buffer :
  Props.applyBatch (a ++ b) buffer = Props.applyBatch b (Props.applyBatch a buffer).
Proof. unfold Props.applyBatch. apply fold_left_app. Qed.

Lemma applyBatch_plan occurrences (done : string) (i : nat) (offset : Z) :
  Props.leftmostFrom documentText findText i occurrences ->
  (i <= String.length documentText)%nat ->
  Z.of_nat (String.length done) = (Z.of_nat i + offset)%Z ->
  Props.applyBatch
    (concat
       (imap (fun j occurrence =>
                Spec.blockOfTextStyles tabId findText processedText
                  originalFormattingRequests
                  (occurrence + offset
                   + Z.of_nat j * Spec.lengthDiff findText processedText)%Z)
          occurrences))
    (done +:+ Props.dropUnits i documentText)
  = done +:+ Props.replaceEvery findText processedText 0
               (Props.dropUnits i documentText).
Proof.
  revert done i offset.
  induction occurrences as [|occurrence rest IH]; intros done i offset Hleft Hi Hdone.
  - cbn [imap concat Props.applyBatch fold_left]. f_equal.
    cbn [Props.leftmostFrom] in Hleft.
    assert (Hover : forall n t, (String.length t <= n)%nat ->
                                Props.dropUnits n t = EmptyString).
    { induction n as [|n IHn]; intros [|c t] Hn; cbn in *; try reflexivity;
        try lia. apply IHn. lia. }
    set (s := Props.dropUnits i documentText).
    rewrite (replaceEvery_no_match findText processedText (String.length s) s);
      [|lia|].
    + pose proof (take_drop_units (String.length s) s) as Htake.
      rewrite (Hover (String.length s) s) in * by lia.
      cbn [Props.replaceEvery]. now rewrite Htake.
    + intros q Hq. unfold s. rewrite dropUnits_add, <- substring_units.
      apply Hleft. lia.
  - cbn [Props.leftmostFrom] in Hleft.
    destruct Hleft as (k & -> & Hik & Hk & Hmatch & Hbefore & Hrest).
    cbn [imap concat]. rewrite applyBatch_app.
    replace (Z.of_nat k + 1 + offset
             + Z.of_nat 0 * Spec.lengthDiff findText processedText)%Z
      with (Z.of_nat k + 1 + offset)%Z by lia.
    rewrite applyBatch_block by assumption.
    rewrite (imap_ext _
               (fun j occurrence =>
                  Spec.blockOfTextStyles tabId findText processedText
                    originalFormattingRequests
                    (occurrence
                     + (offset + Spec.lengthDiff findText processedText)
                     + Z.of_nat j * Spec.lengthDiff findText processedText)%Z));
      [|intros j o _; cbn [compose]; f_equal; lia].
    rewrite IH; [|exact Hrest|lia|].
    + rewrite (replaceEvery_no_match findText processedText (k - i)
                 (Props.dropUnits i documentText));
        [|rewrite length_dropUnits; lia|].
      * rewrite dropUnits_add. replace (i + (k - i))%nat with k by lia.
        rewrite (replaceEvery_match findText processedText
                   (Props.dropUnits k documentText) findText_not_empty);
          [|now rewrite <- substring_units].
        rewrite dropUnits_add, !string_app_assoc. reflexivity.
      * intros q Hq. rewrite dropUnits_add, <- substring_units.
        apply Hbefore. lia.
    + rewrite !string_length_app, length_takeUnits
        by (rewrite length_dropUnits; lia).
      unfold Spec.lengthDiff. lia.
Qed.

End Edits.

(** X13: read as edits of the document text (index 1 is its first code
    unit; a delete removes [startIndex, endIndex), an insert puts its text
    before [index], a style leaves the text), the requests of the planner,
    applied in order, turn the text into the text with every occurrence of
    [findText] replaced by the processed text, from left to right and
    without overlap: the running offset keeps each later range on its
    occurrence. *)
Theorem plan_replaces_every_occurrence
    (tabId : option string) (findText processedText : string)
    (originalFormattingRequests : list Request)
    (content : option (list StructuralElement)) (fuel : nat) :
  findText <> EmptyString ->
  (String.length (_getFullDocumentText content) < fuel)%nat ->
  exists requests,
    _generateReplacementRequests tabId findText processedText
      originalFormattingRequests fuel content = Some requests /\
    Props.applyBatch requests (_getFullDocumentText content)
    = Props.replaceEvery findText processedText 0 (_getFullDocumentText content).
Proof.
  intros Hne Hfuel.
  destruct (scanOccurrences_terminates fuel (_getFullDocumentText content)
              findText 0 [] Hne) as [found Hfound]; [lia|lia|].
  destruct (scanOccurrences_leftmost fuel (_getFullDocumentText content) findText
              0 [] found Hne) as (occurrences & Heq & Hleft); [lia|exact Hfound|].
  cbn [app] in Heq. subst found.
  unfold _generateReplacementRequests. rewrite Hfound.
  eexists. split; [reflexivity|].
  rewrite emitOccurrences_blocks. cbn [app].
  apply (applyBatch_plan tabId findText processedText originalFormattingRequests
           (_getFullDocumentText content) Hne occurrences EmptyString 0 0);
    [exact Hleft|lia|reflexivity].
Qed.

Lemma plan_replaces_every_occurrence_witness :
  exists requests,
    _generateReplacementRequests None "Hello" "Hi" [] 26
      (Some [paragraph [Some "Hello world! Hello again!"]]) = Some requests /\
    Props.applyBatch requests
      (_getFullDocumentText (Some [paragraph [Some "Hello world! Hello again!"]]))
    = Props.replaceEvery "Hello" "Hi" 0
        (_getFullDocumentText (Some [paragraph [Some "Hello world! Hello again!"]])).
Proof.
  apply (plan_replaces_every_occurrence None "Hello" "Hi" []
           (Some [paragraph [Some "Hello world! Hello again!"]]) 26);
    [discriminate|vm_compute; lia].
Defined.

End PlanAsEdits.

(** ** Slides: replaceAllText with entries *)

Section SlidesBatch.
Import SlidesService.

(** X14: with at least one entry, [replaceAllText] never throws.  When the
    client cannot be obtained it returns the error envelope without a
    remote call.  Otherwise it makes exactly one
    [presentations.batchUpdate] call, on the extracted id, whose requests
    are the entries in their order, each matching case; it returns the
    replies when the call resolves and the error envelope when it
    rejects. *)
Theorem replaceAllText_sends_one_batch
    (getAuthenticatedClient : string + unit)
    (batchUpdate : string -> list slides_v1.Request -> string + list string)
    (extractDocId : string -> option string) (presentationId : string)
    (replacements : list (string * string)) :
  replacements <> [] ->
  match getAuthenticatedClient with
  | inl message =>
      Api.run (replaceAllText getAuthenticatedClient batchUpdate extractDocId
                 presentationId replacements)
      = (Api.Returned (Api.JsonError message), [])
  | inr _ =>
      exists requests,
        map Props.entryOf requests = replacements /\
        Forall (fun request => Props.matchesCase request = true) requests /\
        Api.run (replaceAllText getAuthenticatedClient batchUpdate extractDocId
                   presentationId replacements)
        = (Api.Returned
             match batchUpdate (presentationIdOf extractDocId presentationId)
                     requests with
             | inr replies => Api.JsonReply replies
             | inl message => Api.JsonError message
             end,
           [presentations_batchUpdate
              (presentationIdOf extractDocId presentationId) requests])
  end.
Proof.
  intros Hne. destruct getAuthenticatedClient as [message|[]]; [reflexivity|].
  exists (map (fun '(key, value) =>
                 {| slides_v1.replaceAllText :=
                      {| slides_v1.containsText :=
                           {| slides_v1.text := key; slides_v1.matchCase := true |};
                         slides_v1.replaceText := value |} |})
            replacements).
  split; [|split].
  - clear Hne. induction replacements as [|[key value] rest IH]; [reflexivity|].
    cbn [map]. f_equal. exact IH.
  - clear Hne. induction replacements as [|[key value] rest IH]; constructor;
      [reflexivity|exact IH].
  - destruct replacements as [|entry rest]; [congruence|].
    unfold replaceAllText, Api.run, Api.tryCatch, getSlidesClient, Api.await.
    cbn. destruct (batchUpdate _ _); reflexivity.
Qed.

Lemma replaceAllText_sends_one_batch_witness :
  exists requests,
    map Props.entryOf requests = [("{{name}}", "Ada"); ("{{year}}", "1843")] /\
    Forall (fun request => Props.matchesCase request = true) requests /\
    Api.run (replaceAllText (inr tt) (fun _ _ => inr ["{}"; "{}"])
               (fun _ => None) "deck"
               [("{{name}}", "Ada"); ("{{year}}", "1843")])
    = (Api.Returned
         match inr ["{}"; "{}"] with
         | inr replies => Api.JsonReply replies
         | inl message => Api.JsonError message
         end,
       [presentations_batchUpdate
          (presentationIdOf (fun _ => None) "deck") requests]).
Proof.
  exact (replaceAllText_sends_one_batch (inr tt) (fun _ _ => inr ["{}"; "{}"])
           (fun _ => None) "deck" [("{{name}}", "Ada"); ("{{year}}", "1843")]
           ltac:(discriminate)).
Defined.

End SlidesBatch.

(** ** The text of a document *)

Section DocumentText.
Import DocsService docs_v1.

Lemma fold_left_append {A} (f : A -> string) (l : list A) (acc : string) :
  fold_left (fun text x => text +:+ f x) l acc
  = acc +:+ fold_left (fun text x => text +:+ f x) l EmptyString.
Proof.
  revert acc. induction l as [|x l IH]; intros acc; cbn [fold_left].
  - now rewrite string_app_nil_r.
  - rewrite IH, (IH (EmptyString +:+ f x)). cbn. now rewrite string_app_assoc.
Qed.

Lemma fold_left_concat {A B} (g : B -> A -> B) (ls : list (list A)) (acc : B) :
  fold_left g (concat ls) acc = fold_left (fun acc l => fold_left g l acc) ls acc.
Proof.
  revert acc. induction ls as [|l ls IH]; intros acc; [reflexivity|].
  cbn [concat fold_left]. now rewrite fold_left_app, IH.
Qed.

(** X15: the text of a document is the concatenation of the texts of its
    elements: the text of two lists of elements one after the other is the
    text of the first followed by the text of the second, and a table
    reads as the content of its cells, row by row and cell by cell. *)
Theorem document_text_is_concatenation :
  (forall before after,
      _getFullDocumentText (Some (before ++ after))
      = _getFullDocumentText (Some before) +:+ _getFullDocumentText (Some after)) /\
  (forall tableRows,
      _readStructuralElement (table tableRows)
      = _getFullDocumentText (Some (concat (concat tableRows)))) /\
  (forall element,
      _getFullDocumentText (Some [element]) = _readStructuralElement element).
Proof.
  split; [|split].
  - intros before after. cbn [_getFullDocumentText].
    rewrite fold_left_app.
    apply (fold_left_append _readStructuralElement).
  - intros tableRows. cbn [_getFullDocumentText _readStructuralElement].
    rewrite fold_left_concat.
    generalize EmptyString.
    induction tableRows as [|row rows IH]; intros acc; [reflexivity|].
    cbn [fold_left concat]. now rewrite fold_left_app, IH.
  - intros element. reflexivity.
Qed.

End DocumentText.

(** * The text that the methods insert *)

Section InsertedText.
Import DocsService markdownToDocsRequests docs_v1.




Section Replace.
Variable getAuthenticatedClient : string + unit.
Variable get : string -> string + list Tab.
Variable batchUpdate : string -> list Request -> string + string.
Variable extractDocId : string -> option string.
Variable inlineTokens : string -> list marked.Token.
Variable fuel : nat.
Variable findText processedText : string.
Variable originalFormattingRequests : list Request.






End Replace.



End InsertedText.
